(** * completebox: the panel prompt session, its candidate sources and its
      renderer, embedded from [completebox.py].

    Python values are modelled as the program has them: a [str] is a sequence
    of Unicode code points, an [int] is an unbounded integer, a raised
    exception ends the computation with the exception as its result. *)

From Stdlib Require Import ZArith List Bool Lia String Ascii.
Import ListNotations.
Open Scope Z_scope.

Set Implicit Arguments.

(** ** Python strings *)

Module Py.

(** A character is a Unicode code point. *)
Definition char := Z.
Definition str := list char.

(** An ASCII literal of the source. *)
Definition lit (s : string) : str :=
  map (fun a => Z.of_N (N_of_ascii a)) (list_ascii_of_string s).

(** [len(x)]. *)
Definition len {A} (l : list A) : Z := Z.of_nat (List.length l).

(** Truth value of a sequence: non-empty. *)
Definition truthy {A} (l : list A) : bool :=
  match l with [] => false | _ :: _ => true end.

Fixpoint str_eqb (a b : str) : bool :=
  match a, b with
  | [], [] => true
  | x :: a', y :: b' => (x =? y) && str_eqb a' b'
  | _, _ => false
  end.

(** [s.startswith(p)]. *)
Fixpoint startswith (s p : str) {struct p} : bool :=
  match p, s with
  | [], _ => true
  | _ :: _, [] => false
  | a :: p', b :: s' => (a =? b) && startswith s' p'
  end.

(** [s.endswith(p)]. *)
Definition endswith (s p : str) : bool := startswith (rev s) (rev p).

(** [sub in s]. *)
Fixpoint contains (s sub : str) : bool :=
  startswith s sub ||
  match s with
  | [] => false
  | _ :: t => contains t sub
  end.

(** [x in l] for a list or set of strings. *)
Definition mem (x : str) (l : list str) : bool := existsb (str_eqb x) l.

(** [l[:k]]: a negative bound counts from the end, and both bounds are
    clamped to the sequence. *)
Definition slice_to {A} (l : list A) (k : Z) : list A :=
  if k <? 0 then firstn (Z.to_nat (len l + k)) l else firstn (Z.to_nat k) l.

(** [range(n)]. *)
Definition range (n : Z) : list Z := map Z.of_nat (seq 0 (Z.to_nat n)).

(** [s.rpartition(sep)] for a non-empty [sep]: split around the last
    occurrence, or [("", "", s)] when there is none. *)
Fixpoint rpartition (s sep : str) : str * str * str :=
  match s with
  | [] => ([], [], [])
  | c :: t =>
      let '(head, found, tail) := rpartition t sep in
      if truthy found then (c :: head, found, tail)
      else if startswith s sep then ([], sep, skipn (List.length sep) s)
      else ([], [], s)
  end.

(** [str.isspace] on one character: the code points CPython lists as
    whitespace. *)
Definition isspace (c : char) : bool :=
  ((9 <=? c) && (c <=? 13)) || ((28 <=? c) && (c <=? 32)) ||
  (c =? 133) || (c =? 160) || (c =? 5760) ||
  ((8192 <=? c) && (c <=? 8202)) || (c =? 8232) || (c =? 8233) ||
  (c =? 8239) || (c =? 8287) || (c =? 12288).

Fixpoint lstrip (s : str) : str :=
  match s with
  | [] => []
  | c :: t => if isspace c then lstrip t else s
  end.

Definition rstrip (s : str) : str := rev (lstrip (rev s)).

(** [s.strip()]. *)
Definition strip (s : str) : str := rstrip (lstrip s).

(** [s.ljust(width)], padding with spaces. *)
Definition ljust (s : str) (width : Z) : str :=
  s ++ repeat 32 (Z.to_nat (width - len s)).

(** [s.center(width, fill)], with CPython's choice of the left margin. *)
Definition center (s : str) (width : Z) (fill : char) : str :=
  let marg := width - len s in
  if marg <=? 0 then s
  else
    let left := marg / 2 + Z.land (Z.land marg width) 1 in
    repeat fill (Z.to_nat left) ++ s ++ repeat fill (Z.to_nat (marg - left)).

(** Line boundaries of [str.splitlines]. *)
Definition islinebreak (c : char) : bool :=
  ((10 <=? c) && (c <=? 13)) || ((28 <=? c) && (c <=? 30)) ||
  (c =? 133) || (c =? 8232) || (c =? 8233).

(** [s.splitlines()]: [cur] is the line being read, reversed; a carriage
    return directly followed by a line feed is one boundary, and no empty
    line is produced after the last boundary. *)
Fixpoint splitlines_from (cur : str) (s : str) : list str :=
  match s with
  | [] => if truthy cur then [rev cur] else []
  | c :: t =>
      if islinebreak c then
        match c, t with
        | 13, 10 :: t' => rev cur :: splitlines_from [] t'
        | _, _ => rev cur :: splitlines_from [] t
        end
      else splitlines_from (c :: cur) t
  end.

Definition splitlines (s : str) : list str := splitlines_from [] s.

(** [str.lower] on a string of ASCII characters only: the letters [A]-[Z]
    go to [a]-[z]. *)
Definition isascii (c : char) : bool := (0 <=? c) && (c <? 128).

Definition ascii_lower (c : char) : char :=
  if (65 <=? c) && (c <=? 90) then c + 32 else c.

(** [s.lower()].  The Unicode case tables are not part of the program: on a
    string with a character outside ASCII the result is given by
    [unicode_lower], a parameter of the model. *)
Definition lower (unicode_lower : str -> str) (s : str) : str :=
  if forallb isascii s then map ascii_lower s else unicode_lower s.

(** The characters [shlex.quote] leaves unquoted: ASCII letters, digits and
    [_ @ % + = : , . / -]. *)
Definition shlex_safe (c : char) : bool :=
  ((48 <=? c) && (c <=? 57)) || ((65 <=? c) && (c <=? 90)) ||
  ((97 <=? c) && (c <=? 122)) ||
  existsb (Z.eqb c) (lit "_@%+=:,./-").

(** [shlex.quote(s)]: a single quote inside [s] becomes the five characters
    quote, double quote, quote, double quote, quote. *)
Definition shlex_quote (s : str) : str :=
  if negb (truthy s) then [39; 39]
  else if forallb shlex_safe s then s
  else [39] ++ flat_map (fun c => if c =? 39 then [39; 34; 39; 34; 39] else [c]) s
       ++ [39].

End Py.

Import Py.

(** ** Exceptions *)

(** The exceptions the program distinguishes.  [KeyboardInterrupt] and
    [SystemExit] are below [BaseException] but not below [Exception];
    [OtherException] stands for every other class below [Exception]. *)
Inductive exn : Type :=
| FileNotFoundError
| IndexError
| OtherException
| KeyboardInterrupt
| SystemExit.

Definition is_Exception (e : exn) : bool :=
  match e with
  | KeyboardInterrupt | SystemExit => false
  | _ => true
  end.

(** A computation returns a value or raises. *)
Inductive result (A : Type) : Type :=
| Ok (a : A)
| Raise (e : exn).

Arguments Ok {A} a.
Arguments Raise {A} e.

Definition bind {A B} (r : result A) (k : A -> result B) : result B :=
  match r with
  | Ok a => k a
  | Raise e => Raise e
  end.

Notation "x <- r ;; k" := (bind r (fun x => k))
  (at level 61, r at next level, right associativity).

(** [try: r  except Exception: handler]. *)
Definition try_except_Exception {A} (r : result A) (handler : A) : result A :=
  match r with
  | Ok a => Ok a
  | Raise e => if is_Exception e then Ok handler else Raise e
  end.

(** [l[i]]: a negative index counts from the end; out of range raises. *)
Definition getitem {A} (l : list A) (i : Z) : result A :=
  let j := if i <? 0 then len l + i else i in
  if j <? 0 then Raise IndexError
  else match nth_error l (Z.to_nat j) with
       | Some a => Ok a
       | None => Raise IndexError
       end.

(** ** Module constants *)

Definition DEFAULT_CHOICES : list str :=
  [ lit "com.google.android.apps.messaging";
    lit "com.whatsapp";
    lit "com.instagram.android";
    lit "com.spotify.music";
    lit "com.facebook.android";
    lit "com.twitter.android";
    lit "com.youtube";
    lit "com.tiktok" ].

(** The ellipsis, the selection marker and the box-drawing characters. *)
Definition ELLIPSIS : char := 8230.
Definition MARKER : char := 8250.
Definition BOX_H : char := 9472.
Definition BOX_V : char := 9474.
Definition BOX_TL : char := 9484.
Definition BOX_TR : char := 9488.
Definition BOX_BL : char := 9492.
Definition BOX_BR : char := 9496.
Definition SPACE : char := 32.
Definition NEWLINE : char := 10.

(** ** Query splitter *)

Definition _split_completion_query (text : str) : str * str :=
  if negb (truthy text) then ([], [])
  else if endswith text [SPACE] then (text, [])
  else
    let '(head, sep, tail) := rpartition text [SPACE] in
    if truthy sep then (head ++ sep, tail)
    else ([], text).

(** ** The external completer *)

(** What [subprocess.run] does with an argument vector: the process runs to
    completion with an exit status and its decoded standard output, or the
    call raises. *)
Inductive run_outcome : Type :=
| Completed (returncode : Z) (stdout : str)
| RunRaises (e : exn).

Definition subprocess := list str -> run_outcome.

(** The loop of [bash_completer]: [seen] is the set of full strings met so
    far, [completions] the list built so far. *)
Definition dedup_step (lead : str) (acc : list str * list str) (candidate : str)
  : list str * list str :=
  let '(seen, completions) := acc in
  let full := lead ++ candidate in
  if negb (mem full seen) then (full :: seen, completions ++ [full])
  else (seen, completions).

(** The argument vector [bash_completer] hands to [subprocess.run]. *)
Definition compgen_argv (fragment : str) : list str :=
  [lit "bash"; lit "-ic"; lit "compgen -cdfa -- " ++ shlex_quote fragment].

Definition bash_completer (query : str) (run : subprocess) : result (list str) :=
  let '(lead, fragment) := _split_completion_query query in
  match run (compgen_argv fragment) with
  | RunRaises FileNotFoundError => Ok []
  | RunRaises e => Raise e
  | Completed _ stdout =>
      let candidates := filter truthy (splitlines stdout) in
      Ok (snd (fold_left (dedup_step lead) candidates ([], [])))
  end.

(** ** The session *)

Section Model.

(** [Env] is what a completer function reads of the outside world at the
    moment it is called (the file system and the shell for
    [bash_completer]); a completer with a state of its own sees that state
    here.  [unicode_lower] is [str.lower] outside ASCII. *)
Variable Env : Type.
Variable unicode_lower : str -> str.

(** A styled fragment [(style, text)], and a sequence of them. *)
Definition fragment : Type := string * str.
Definition FormattedText : Type := list fragment.

(** The attributes of [_PanelPromptSession].  The style sheet is handed to
    the terminal library unread and is left out. *)
Record _PanelPromptSession : Type := mkSession {
  prompt_text : str;
  choices : option (list str);
  completer : option (str -> Env -> result (list str));
  max_rows : Z;
  panel_width : Z;
  panel_inner_width : Z;
  input_text : str;
  filtered_items : list str;
  selected_index : Z
}.

Definition set_input_text (s : _PanelPromptSession) (t : str) : _PanelPromptSession :=
  mkSession (prompt_text s) (choices s) (completer s) (max_rows s)
    (panel_width s) (panel_inner_width s) t (filtered_items s) (selected_index s).

Definition set_filtered_items (s : _PanelPromptSession) (l : list str) : _PanelPromptSession :=
  mkSession (prompt_text s) (choices s) (completer s) (max_rows s)
    (panel_width s) (panel_inner_width s) (input_text s) l (selected_index s).

Definition set_selected_index (s : _PanelPromptSession) (i : Z) : _PanelPromptSession :=
  mkSession (prompt_text s) (choices s) (completer s) (max_rows s)
    (panel_width s) (panel_inner_width s) (input_text s) (filtered_items s) i.

(** [self.choices or []]. *)
Definition choices_or_empty (s : _PanelPromptSession) : list str :=
  match choices s with
  | Some l => l
  | None => []
  end.

Definition filter_items (s : _PanelPromptSession) (w : Env) : result _PanelPromptSession :=
  let query := input_text s in
  s1 <- (if negb (truthy (strip query)) then Ok (set_filtered_items s [])
         else
           match completer s with
           | Some f =>
               completions <- try_except_Exception (f query w) [] ;;
               Ok (set_filtered_items s (filter truthy completions))
           | None =>
               let lowered := lower unicode_lower query in
               let source := choices_or_empty s in
               Ok (set_filtered_items s
                     (filter (fun item => contains (lower unicode_lower item) lowered)
                        source))
           end) ;;
  Ok (set_selected_index s1
        (Z.min (selected_index s1) (Z.max (len (filtered_items s1) - 1) 0))).

Definition __init__ (prompt : str) (chs : option (list str))
    (cmp : option (str -> Env -> result (list str))) (rows : Z) (w : Env)
  : result _PanelPromptSession :=
  filter_items (mkSession prompt chs cmp rows 46 (46 - 4) [] [] 0) w.

Definition _truncate (text : str) (width : Z) : str :=
  if width <=? 0 then []
  else if len text <=? width then text
  else if width =? 1 then [ELLIPSIS]
  else slice_to text (width - 1) ++ [ELLIPSIS].

Definition _panel_header (s : _PanelPromptSession) (title : str) : FormattedText :=
  let inner := [SPACE] ++ title ++ [SPACE] in
  let line_len := panel_width s - 2 in
  let header := center inner line_len BOX_H in
  [("class:panel-border"%string, [BOX_TL] ++ header ++ [BOX_TR] ++ [NEWLINE])].

Definition _panel_footer (s : _PanelPromptSession) : FormattedText :=
  let line_len := panel_width s - 2 in
  [("class:panel-border"%string,
    [BOX_BL] ++ repeat BOX_H (Z.to_nat line_len) ++ [BOX_BR] ++ [NEWLINE])].

Definition _panel_row (s : _PanelPromptSession) (text : str) (style : string)
  : FormattedText :=
  let padded := ljust text (panel_inner_width s) in
  [("class:panel-border"%string, [BOX_V; SPACE]);
   (style, padded);
   ("class:panel-border"%string, [SPACE; BOX_V; NEWLINE])].

(** One turn of the loop over [range(self.max_rows)] in the branch of
    [render_panel] that has suggestions. *)
Definition suggestion_row (s : _PanelPromptSession) (suggestions : list str)
    (lines : FormattedText) (idx : Z) : result FormattedText :=
  row <- (if idx <? len suggestions then
            item <- getitem suggestions idx ;;
            let prefix := if idx =? selected_index s then [MARKER; SPACE]
                          else [SPACE; SPACE] in
            let content := prefix ++ _truncate item (panel_inner_width s - len prefix) in
            let style := if idx =? selected_index s then "class:selected-line"%string
                         else "class:panel-line"%string in
            Ok (content, style)
          else Ok ([], "class:panel-placeholder"%string)) ;;
  Ok (lines ++ _panel_row s (fst row) (snd row)).

(** A [for] loop whose body may raise. *)
Fixpoint for_each {A B} (body : A -> B -> result A) (l : list B) (a : A) : result A :=
  match l with
  | [] => Ok a
  | x :: l' => a' <- body a x ;; for_each body l' a'
  end.

Definition render_panel (s : _PanelPromptSession) : result FormattedText :=
  if negb (truthy (filtered_items s)) then
    let lines := _panel_header s (lit "No results") in
    let message := _truncate (lit "Tidak ada hasil") (panel_inner_width s) in
    let lines := lines ++ _panel_row s message "class:no-results" in
    lines <- for_each
               (fun lines _ => Ok (lines ++ _panel_row s [] "class:panel-placeholder"))
               (range (max_rows s - 1)) lines ;;
    Ok (lines ++ _panel_footer s)
  else
    let lines := _panel_header s (lit "Suggestions") in
    let suggestions := slice_to (filtered_items s) (max_rows s) in
    lines <- for_each (suggestion_row s suggestions) (range (max_rows s)) lines ;;
    Ok (lines ++ _panel_footer s).

Definition render_content (s : _PanelPromptSession) : result FormattedText :=
  let parts := [("class:prompt"%string, prompt_text s);
                ("class:input"%string, input_text s)] in
  parts <- (if truthy (input_text s) then
              panel <- render_panel s ;;
              Ok (parts ++ [(""%string, [NEWLINE; NEWLINE])] ++ panel
                        ++ [(""%string, [NEWLINE])])
            else Ok parts) ;;
  Ok (parts ++ [("class:footer"%string, lit "Tab: isi dari pilihan | Ctrl+C: batal")]).

Definition _accept_selection (s : _PanelPromptSession) : result _PanelPromptSession :=
  if truthy (filtered_items s) then
    item <- getitem (filtered_items s) (selected_index s) ;;
    Ok (set_input_text s item)
  else Ok s.

(** ** Key bindings *)

Inductive key : Type :=
| Up | Down | Tab | Enter | Escape | Backspace | ControlU | ControlC
| Character (c : char).

(** The characters [run] binds to the appending handler. *)
Definition BOUND_CHARACTERS : str :=
  lit "abcdefghijklmnopqrstuvwxyzABCDEFGHIJKLMNOPQRSTUVWXYZ0123456789.-_ ".

(** What a key leaves behind: the session goes on, or the application exits
    with a result, or it exits with [KeyboardInterrupt]. *)
Inductive transition : Type :=
| Editing (s : _PanelPromptSession)
| Accepted (text : str)
| Cancelled.

Definition key_up (s : _PanelPromptSession) : _PanelPromptSession :=
  if truthy (filtered_items s) && (selected_index s >? 0)
  then set_selected_index s (selected_index s - 1)
  else s.

Definition key_down (s : _PanelPromptSession) : _PanelPromptSession :=
  if truthy (filtered_items s) && (selected_index s <? len (filtered_items s) - 1)
  then set_selected_index s (selected_index s + 1)
  else s.

Definition key_tab (s : _PanelPromptSession) (w : Env) : result _PanelPromptSession :=
  if truthy (filtered_items s) then
    s1 <- _accept_selection s ;;
    filter_items s1 w
  else Ok s.

Definition key_enter (s : _PanelPromptSession) : result str :=
  let text := input_text s in
  if negb (truthy text) && truthy (filtered_items s)
  then getitem (filtered_items s) (selected_index s)
  else Ok text.

Definition key_escape (s : _PanelPromptSession) (w : Env) : result _PanelPromptSession :=
  filter_items (set_input_text s []) w.

Definition key_backspace (s : _PanelPromptSession) (w : Env) : result _PanelPromptSession :=
  if truthy (input_text s)
  then filter_items (set_input_text s (slice_to (input_text s) (-1))) w
  else Ok s.

Definition key_c_u (s : _PanelPromptSession) (w : Env) : result _PanelPromptSession :=
  filter_items (set_input_text s []) w.

Definition key_char (c : char) (s : _PanelPromptSession) (w : Env)
  : result _PanelPromptSession :=
  filter_items (set_input_text s (input_text s ++ [c])) w.

(** The dispatch of one key event; [w] is the outside world at that moment.
    A character without a binding is ignored. *)
Definition handle (s : _PanelPromptSession) (w : Env) (k : key) : result transition :=
  match k with
  | Up => Ok (Editing (key_up s))
  | Down => Ok (Editing (key_down s))
  | Tab => s' <- key_tab s w ;; Ok (Editing s')
  | Enter => text <- key_enter s ;; Ok (Accepted text)
  | Escape => s' <- key_escape s w ;; Ok (Editing s')
  | Backspace => s' <- key_backspace s w ;; Ok (Editing s')
  | ControlU => s' <- key_c_u s w ;; Ok (Editing s')
  | ControlC => Ok Cancelled
  | Character c =>
      if existsb (Z.eqb c) BOUND_CHARACTERS
      then s' <- key_char c s w ;; Ok (Editing s')
      else Ok (Editing s)
  end.

(** The event loop of [run] over the key events that arrive, each with the
    outside world at its time: it stops at the first exit.  An exception
    that leaves a handler ends the loop here; what the terminal library does
    with it is outside the program, and the properties below take [run] from
    states in which no handler raises an exception of class [Exception]. *)
Fixpoint run (s : _PanelPromptSession) (events : list (key * Env)) : result transition :=
  match events with
  | [] => Ok (Editing s)
  | (k, w) :: rest =>
      t <- handle s w k ;;
      match t with
      | Editing s' => run s' rest
      | _ => Ok t
      end
  end.

(** [complete_panel_prompt]: an absent or empty [choices] is replaced by the
    default list. *)
Definition complete_panel_prompt (prompt : str) (chs : option (list str))
    (cmp : option (str -> Env -> result (list str))) (rows : Z)
    (w : Env) (events : list (key * Env)) : result transition :=
  let chs' := match chs with
              | Some (c :: l) => c :: l
              | _ => DEFAULT_CHOICES
              end in
  s <- __init__ prompt (Some chs') cmp rows w ;;
  run s events.

(** The states a session goes through: the one [__init__] builds, and the
    one every handled key leaves. *)
Inductive reachable : _PanelPromptSession -> Prop :=
| reachable_init prompt chs cmp rows w s :
    __init__ prompt chs cmp rows w = Ok s -> reachable s
| reachable_key s w k s' :
    reachable s -> handle s w k = Ok (Editing s') -> reachable s'.

(** ** Properties stated about the session *)

(** The selection index addresses a row of the filtered list, and is 0 when
    the list is empty. *)
Definition selection_ok (s : _PanelPromptSession) : Prop :=
  (filtered_items s <> [] -> 0 <= selected_index s < len (filtered_items s)) /\
  (filtered_items s = [] -> selected_index s = 0).

(** [l1] is [l2] with some entries left out, the others in their order. *)
Inductive subsequence {A : Type} : list A -> list A -> Prop :=
| subsequence_nil : subsequence [] []
| subsequence_skip x l1 l2 : subsequence l1 l2 -> subsequence l1 (x :: l2)
| subsequence_keep x l1 l2 : subsequence l1 l2 -> subsequence (x :: l1) (x :: l2).

(** The lines of a rendered panel: every line of the box is closed by a
    border fragment that ends in a line feed. *)
Definition closes_line (f : fragment) : bool :=
  String.eqb (fst f) "class:panel-border" && endswith (snd f) [NEWLINE].

Definition panel_lines (t : FormattedText) : Z := len (filter closes_line t).

(** The line feeds the terminal receives. *)
Definition line_feeds (t : FormattedText) : Z :=
  len (filter (Z.eqb NEWLINE) (flat_map snd t)).

(** A string without a line feed. *)
Definition no_line_feed (t : str) : Prop := ~ In NEWLINE t.

(** Whether a rendering contains a panel: only a panel has border
    fragments. *)
Definition has_panel (t : FormattedText) : bool :=
  existsb (fun f => String.eqb (fst f) "class:panel-border") t.

(** ** Further definitions *)

(** The list the static variant of [filter_items] computes for the buffer. *)
Definition static_candidates (s : _PanelPromptSession) : list str :=
  if negb (truthy (strip (input_text s))) then []
  else filter (fun item => contains (lower unicode_lower item)
                             (lower unicode_lower (input_text s)))
         (choices_or_empty s).

(** [str.lower] on a string of ASCII letters and capital sigmas (U+03A3),
    as CPython computes it: a letter goes to its lower case, and a capital
    sigma goes to the final small sigma (U+03C2) when a letter or sigma
    stands before it and none after it, else to the small sigma (U+03C3). *)
Definition SIGMA : char := 931.

Definition is_cased (c : char) : bool :=
  ((65 <=? c) && (c <=? 90)) || ((97 <=? c) && (c <=? 122)) || (c =? SIGMA).

Fixpoint sigma_lower_from (before : str) (t : str) : str :=
  match t with
  | [] => []
  | c :: t' =>
      (if c =? SIGMA then
         if match before with p :: _ => is_cased p | [] => false end &&
            negb (match t' with n :: _ => is_cased n | [] => false end)
         then 962 else 963
       else ascii_lower c) :: sigma_lower_from (c :: before) t'
  end.

Definition sigma_lower (t : str) : str := sigma_lower_from [] t.

(** The key events of typing the characters of [t], the outside world being
    [w] at each of them. *)
Definition typing (t : str) (w : Env) : list (key * Env) :=
  map (fun c => (Character c, w)) t.

(** The characters a rendering sends, and the widths of the lines they
    make: [n] characters of the current line have been read. *)
Definition text_of (t : FormattedText) : str := flat_map snd t.

Fixpoint line_widths_from (n : Z) (t : str) : list Z :=
  match t with
  | [] => if n =? 0 then [] else [n]
  | c :: t' =>
      if c =? NEWLINE then n :: line_widths_from 0 t'
      else line_widths_from (n + 1) t'
  end.

Definition line_widths (t : FormattedText) : list Z :=
  line_widths_from 0 (text_of t).

(** The rows of a rendering drawn as the selected one. *)
Definition selected_rows (t : FormattedText) : Z :=
  len (filter (fun f => String.eqb (fst f) "class:selected-line") t).

(** [PanelInput]: its attributes, its constructor and [prompt].  The style
    is left out as in the session. *)
Record PanelInput : Type := mkPanelInput {
  _choices : list str;
  _completer : option (str -> Env -> result (list str));
  _max_rows : Z
}.

Definition PanelInput__init__ (chs : option (list str))
    (cmp : option (str -> Env -> result (list str))) (rows : Z) : PanelInput :=
  mkPanelInput (match chs with Some l => l | None => DEFAULT_CHOICES end) cmp rows.

Definition prompt (p : PanelInput) (prompt_text : str) (w : Env)
    (events : list (key * Env)) : result transition :=
  session <- __init__ prompt_text (Some (_choices p)) (_completer p) (_max_rows p) w ;;
  run session events.

(** * Proofs *)

Unset Implicit Arguments.

(** ** Sequences *)

Lemma len_nonneg {A} (l : list A) : 0 <= len l.
Proof. unfold len. lia. Qed.

Lemma len_app {A} (l1 l2 : list A) : len (l1 ++ l2) = len l1 + len l2.
Proof. unfold len. rewrite length_app. lia. Qed.

Lemma len_nil_iff {A} (l : list A) : len l = 0 <-> l = [].
Proof.
  unfold len. split; intros H.
  - destruct l; [reflexivity | simpl in H; lia].
  - subst. reflexivity.
Qed.

Lemma truthy_true_iff {A} (l : list A) : truthy l = true <-> l <> [].
Proof. destruct l; simpl; split; congruence. Qed.

Lemma truthy_false_iff {A} (l : list A) : truthy l = false <-> l = [].
Proof. destruct l; simpl; split; congruence. Qed.

Lemma startswith_iff (s p : str) :
  startswith s p = true <-> exists post, s = p ++ post.
Proof.
  revert s. induction p as [|a p IH]; intros s.
  - destruct s; simpl; (split; [intros _; eexists; reflexivity | reflexivity]).
  - destruct s as [|b s]; simpl.
    + split; [discriminate | intros [post H]; discriminate].
    + rewrite andb_true_iff, Z.eqb_eq, IH. split.
      * intros [-> [post ->]]. exists post. reflexivity.
      * intros [post H]. injection H as -> ->. split; [reflexivity | eauto].
Qed.

Lemma contains_iff (s sub : str) :
  contains s sub = true <-> exists pre post, s = pre ++ sub ++ post.
Proof.
  induction s as [|c s IH].
  - simpl. rewrite orb_false_r, startswith_iff. split.
    + intros [post H]. exists [], post. exact H.
    + intros [pre [post H]]. destruct pre; simpl in H.
      * exists post. exact H.
      * discriminate.
  - cbn [contains]. rewrite orb_true_iff, startswith_iff, IH. split.
    + intros [[post H] | [pre [post H]]].
      * exists [], post. exact H.
      * exists (c :: pre), post. simpl. now rewrite H.
    + intros [pre [post H]]. destruct pre as [|d pre]; simpl in H.
      * left. exists post. exact H.
      * right. injection H as -> ->. eauto.
Qed.

Lemma contains_refl (s : str) : contains s s = true.
Proof. apply contains_iff. exists [], []. now rewrite app_nil_r. Qed.

Lemma lstrip_nil_iff (s : str) : lstrip s = [] <-> forallb isspace s = true.
Proof.
  induction s as [|c s IH]; simpl.
  - split; reflexivity.
  - destruct (isspace c); simpl; [exact IH | split; discriminate].
Qed.

Lemma forallb_rev {A} (f : A -> bool) (l : list A) :
  forallb f (rev l) = forallb f l.
Proof.
  induction l as [|a l IH]; simpl; [reflexivity|].
  rewrite forallb_app, IH. simpl. rewrite andb_true_r. apply andb_comm.
Qed.

Lemma lstrip_head (s : str) :
  lstrip s = [] \/ exists c t, lstrip s = c :: t /\ isspace c = false.
Proof.
  induction s as [|c s IH]; simpl; [now left|].
  destruct (isspace c) eqn:E; [exact IH | right; eauto].
Qed.

(** A string strips to nothing exactly when it is empty or all whitespace. *)
Lemma strip_nil_iff (s : str) : strip s = [] <-> forallb isspace s = true.
Proof.
  unfold strip, rstrip. split; intros H.
  - apply (f_equal (@rev char)) in H. rewrite rev_involutive in H. simpl in H.
    apply lstrip_nil_iff in H. rewrite forallb_rev in H.
    destruct (lstrip_head s) as [E | [c [t [E Hc]]]].
    + now apply lstrip_nil_iff.
    + rewrite E in H. simpl in H. rewrite Hc in H. discriminate.
  - apply lstrip_nil_iff in H. rewrite H. reflexivity.
Qed.

Lemma rpartition_absent (s : str) (c : char) :
  ~ In c s -> rpartition s [c] = ([], [], s).
Proof.
  induction s as [|d s IH]; intros Hn; [reflexivity|].
  cbn [rpartition]. rewrite IH by (intros H; apply Hn; now right).
  cbn [truthy startswith].
  destruct (Z.eqb_spec c d) as [->|Hne]; [exfalso; apply Hn; now left|].
  reflexivity.
Qed.

Lemma rpartition_last (a b : str) (c : char) :
  ~ In c b -> rpartition (a ++ c :: b) [c] = (a, [c], b).
Proof.
  intros Hn. induction a as [|d a IH].
  - cbn [app rpartition]. rewrite rpartition_absent by exact Hn.
    cbn [truthy startswith]. rewrite Z.eqb_refl. reflexivity.
  - cbn [app rpartition]. rewrite IH. reflexivity.
Qed.

Lemma endswith_char (s : str) (c : char) :
  endswith s [c] = true <-> exists a, s = a ++ [c].
Proof.
  unfold endswith. cbn [rev app]. rewrite startswith_iff. split.
  - intros [post H]. exists (rev post).
    apply (f_equal (@rev char)) in H. rewrite rev_involutive in H.
    rewrite H. simpl. reflexivity.
  - intros [a ->]. exists (rev a). rewrite rev_app_distr. reflexivity.
Qed.

Lemma endswith_char_absent (s : str) (c : char) :
  ~ In c s -> endswith s [c] = false.
Proof.
  intros Hn. destruct (endswith s [c]) eqn:E; [|reflexivity].
  apply endswith_char in E. destruct E as [a ->].
  exfalso. apply Hn. apply in_or_app. right. now left.
Qed.

(** ** Truncation *)

Lemma len_firstn_le {A} (l : list A) (n : nat) :
  (n <= List.length l)%nat -> len (firstn n l) = Z.of_nat n.
Proof. intros H. unfold len. rewrite length_firstn. lia. Qed.

Lemma truncate_long (text : str) (width : Z) :
  1 < width -> width < len text ->
  _truncate text width = firstn (Z.to_nat (width - 1)) text ++ [ELLIPSIS].
Proof.
  intros H1 H2. unfold _truncate, slice_to.
  destruct (Z.leb_spec width 0); [lia|].
  destruct (Z.leb_spec (len text) width); [lia|].
  destruct (Z.eqb_spec width 1); [lia|].
  destruct (Z.ltb_spec (width - 1) 0); [lia|].
  reflexivity.
Qed.

(** C5.  Truncation contract: the result is never longer than a width
    [width >= 0]; a text that fits is returned unchanged; a width [<= 0] gives
    the empty string; width 1 gives the ellipsis alone when the text does not
    fit; otherwise the result is the first [width - 1] characters followed by
    the ellipsis. *)
Theorem truncate_contract (text : str) (width : Z) :
  (0 <= width -> len (_truncate text width) <= width) /\
  (len text <= width -> _truncate text width = text) /\
  (width <= 0 -> _truncate text width = []) /\
  (width = 1 -> width < len text -> _truncate text width = [ELLIPSIS]) /\
  (1 < width -> width < len text ->
   _truncate text width = firstn (Z.to_nat (width - 1)) text ++ [ELLIPSIS]).
Proof.
  assert (Hfit : len text <= width -> _truncate text width = text).
  { intros H. unfold _truncate.
    destruct (Z.leb_spec width 0) as [Hw|Hw].
    - pose proof (len_nonneg text). symmetry. apply len_nil_iff. lia.
    - destruct (Z.leb_spec (len text) width); [reflexivity | lia]. }
  assert (Hzero : width <= 0 -> _truncate text width = []).
  { intros H. unfold _truncate. destruct (Z.leb_spec width 0); [reflexivity | lia]. }
  assert (Hone : width = 1 -> width < len text -> _truncate text width = [ELLIPSIS]).
  { intros -> H. unfold _truncate. cbn [Z.leb Z.compare].
    destruct (Z.leb_spec (len text) 1); [lia | reflexivity]. }
  repeat split; auto using truncate_long.
  intros Hw.
  destruct (Z_le_gt_dec (len text) width) as [Hl|Hl].
  - rewrite Hfit by exact Hl. exact Hl.
  - destruct (Z.eq_dec width 0) as [->|H0].
    + rewrite Hzero by lia. unfold len. simpl. lia.
    + destruct (Z.eq_dec width 1) as [->|H1].
      * rewrite Hone by lia. unfold len. simpl. lia.
      * rewrite truncate_long by lia. rewrite len_app, len_firstn_le.
        -- unfold len. simpl. lia.
        -- unfold len in Hl. lia.
Qed.

Lemma truncate_contract_witness :
  len (_truncate (lit "abcdef") 3) <= 3 /\
  _truncate (lit "abc") 3 = lit "abc" /\
  _truncate (lit "abc") 0 = [] /\
  _truncate (lit "abc") 1 = [ELLIPSIS] /\
  _truncate (lit "abcdef") 3 = lit "ab" ++ [ELLIPSIS].
Proof.
  destruct (truncate_contract (lit "abcdef") 3) as (Hlen & _ & _ & _ & Hcut).
  destruct (truncate_contract (lit "abc") 3) as (_ & Hfit & _).
  destruct (truncate_contract (lit "abc") 0) as (_ & _ & Hzero & _).
  destruct (truncate_contract (lit "abc") 1) as (_ & _ & _ & Hone & _).
  split; [apply Hlen; lia|].
  split; [apply Hfit; vm_compute; discriminate|].
  split; [apply Hzero; lia|].
  split; [apply Hone; [reflexivity | vm_compute; reflexivity]|].
  apply Hcut; [lia | vm_compute; reflexivity].
Defined.

(** ** Query splitter *)

Lemma split_at_last_space (a b : str) :
  ~ In SPACE b ->
  _split_completion_query (a ++ [SPACE] ++ b) = (a ++ [SPACE], b).
Proof.
  intros Hn. unfold _split_completion_query.
  replace (truthy (a ++ [SPACE] ++ b)) with true by (destruct a; reflexivity).
  cbn [negb]. destruct b as [|c b'] using rev_ind.
  - replace (endswith (a ++ [SPACE] ++ []) [SPACE]) with true
      by (symmetry; apply endswith_char; exists a; reflexivity).
    cbn [app]. reflexivity.
  - clear IHb'.
    replace (endswith (a ++ [SPACE] ++ b' ++ [c]) [SPACE]) with false.
    + cbn [app]. rewrite rpartition_last by exact Hn. reflexivity.
    + symmetry. destruct (endswith (a ++ [SPACE] ++ b' ++ [c]) [SPACE]) eqn:E;
        [|reflexivity].
      apply endswith_char in E. destruct E as [x E].
      replace (a ++ [SPACE] ++ b' ++ [c]) with ((a ++ [SPACE] ++ b') ++ [c]) in E
        by (now rewrite <- !app_assoc).
      apply app_inj_tail in E. destruct E as [_ ->].
      exfalso. apply Hn. apply in_or_app. right. now left.
Qed.

Lemma split_without_space (text : str) :
  ~ In SPACE text -> _split_completion_query text = ([], text).
Proof.
  intros Hn. unfold _split_completion_query.
  destruct text as [|c t]; [reflexivity|].
  cbn [truthy negb]. rewrite endswith_char_absent by exact Hn.
  rewrite rpartition_absent by exact Hn. reflexivity.
Qed.

(** C6.  Query splitter contract: the empty input gives two empty strings; an
    input that ends in a space is all lead; otherwise the input is cut after
    its last space, the lead being empty when there is no space; and the four
    sample inputs give the stated pairs. *)
Theorem split_completion_query_contract :
  _split_completion_query [] = ([], []) /\
  (forall text, endswith text [SPACE] = true ->
     _split_completion_query text = (text, [])) /\
  (forall a b, ~ In SPACE b ->
     _split_completion_query (a ++ [SPACE] ++ b) = (a ++ [SPACE], b)) /\
  (forall text, ~ In SPACE text -> _split_completion_query text = ([], text)) /\
  _split_completion_query (lit "") = (lit "", lit "") /\
  _split_completion_query (lit "foo ") = (lit "foo ", lit "") /\
  _split_completion_query (lit "foo bar") = (lit "foo ", lit "bar") /\
  _split_completion_query (lit "foo") = (lit "", lit "foo").
Proof.
  split; [reflexivity|].
  split.
  { intros text H. unfold _split_completion_query. rewrite H.
    destruct text; reflexivity. }
  split; [exact split_at_last_space|].
  split; [exact split_without_space|].
  repeat split; vm_compute; reflexivity.
Qed.

Lemma split_completion_query_contract_witness :
  _split_completion_query (lit "ls -l ") = (lit "ls -l ", lit "") /\
  _split_completion_query (lit "ls -l sr") = (lit "ls -l ", lit "sr") /\
  _split_completion_query (lit "sr") = (lit "", lit "sr").
Proof.
  destruct split_completion_query_contract as (_ & H1 & H2 & H3 & _).
  split; [apply (H1 (lit "ls -l ")); vm_compute; reflexivity|].
  split.
  - apply (H2 (lit "ls -l") (lit "sr")). vm_compute. intuition discriminate.
  - apply (H3 (lit "sr")). vm_compute. intuition discriminate.
Defined.

(** ** Computations that may raise *)

Lemma bind_Ok {A B} (r : result A) (k : A -> result B) (b : B) :
  bind r k = Ok b -> exists a, r = Ok a /\ k a = Ok b.
Proof. destruct r as [a|e]; simpl; [eauto | discriminate]. Qed.

Lemma bind_Raise {A B} (r : result A) (k : A -> result B) (e : exn) :
  bind r k = Raise e -> r = Raise e \/ exists a, r = Ok a /\ k a = Raise e.
Proof. destruct r as [a|e']; simpl; [eauto | intros [= ->]; now left]. Qed.

Ltac inv_bind H :=
  let a := fresh "a" in
  let Ha := fresh "Ha" in
  apply bind_Ok in H; destruct H as [a [Ha H]].

Lemma getitem_in_range {A} (l : list A) (i : Z) :
  0 <= i < len l -> exists a, getitem l i = Ok a /\ nth_error l (Z.to_nat i) = Some a.
Proof.
  intros [H0 H1]. unfold getitem.
  destruct (Z.ltb_spec i 0); [lia|].
  destruct (Z.ltb_spec i 0); [lia|].
  destruct (nth_error l (Z.to_nat i)) as [a|] eqn:E; [eauto|].
  apply nth_error_None in E. unfold len in H1. lia.
Qed.

Lemma getitem_In {A} (l : list A) (i : Z) (a : A) : getitem l i = Ok a -> In a l.
Proof.
  unfold getitem.
  destruct ((if i <? 0 then len l + i else i) <? 0); [discriminate|].
  destruct (nth_error l _) as [b|] eqn:E; [|discriminate].
  intros [= <-]. eapply nth_error_In. exact E.
Qed.

(** ** Recomputation *)

(** What [filter_items] leaves: the same session with a new list and the
    clamped index. *)
Lemma filter_items_shape (s s' : _PanelPromptSession) (w : Env) :
  filter_items s w = Ok s' ->
  s' = set_selected_index (set_filtered_items s (filtered_items s'))
         (Z.min (selected_index s) (Z.max (len (filtered_items s') - 1) 0)).
Proof.
  unfold filter_items. intros H. inv_bind H. injection H as <-.
  assert (Hs : a = set_filtered_items s (filtered_items a)).
  { destruct (negb (truthy (strip (input_text s)))).
    - injection Ha as <-. reflexivity.
    - destruct (completer s) as [f|].
      + inv_bind Ha. injection Ha as <-. reflexivity.
      + injection Ha as <-. reflexivity. }
  rewrite Hs at 1 2. reflexivity.
Qed.

Lemma filter_items_fields (s s' : _PanelPromptSession) (w : Env) :
  filter_items s w = Ok s' ->
  input_text s' = input_text s /\ choices s' = choices s /\
  completer s' = completer s /\ max_rows s' = max_rows s /\
  selected_index s' =
    Z.min (selected_index s) (Z.max (len (filtered_items s') - 1) 0).
Proof.
  intros H. apply filter_items_shape in H. rewrite H. cbn. tauto.
Qed.

Lemma clamp_selection_ok (s : _PanelPromptSession) :
  selected_index s = Z.min (selected_index s) (Z.max (len (filtered_items s) - 1) 0) ->
  0 <= selected_index s -> selection_ok s.
Proof.
  intros Hc H0. pose proof (len_nonneg (filtered_items s)) as Hl. split.
  - intros Hne. assert (len (filtered_items s) <> 0) by (rewrite len_nil_iff; exact Hne).
    lia.
  - intros E. rewrite E in Hc. change (len (@nil str)) with 0 in Hc. lia.
Qed.

Lemma filter_items_selection_ok (s s' : _PanelPromptSession) (w : Env) :
  0 <= selected_index s -> filter_items s w = Ok s' -> selection_ok s'.
Proof.
  intros H0 H. apply filter_items_fields in H. destruct H as (_ & _ & _ & _ & Hi).
  pose proof (len_nonneg (filtered_items s')) as Hl.
  apply clamp_selection_ok; lia.
Qed.

Lemma selection_ok_nonneg (s : _PanelPromptSession) :
  selection_ok s -> 0 <= selected_index s.
Proof.
  intros [H1 H2]. destruct (filtered_items s) as [|c l] eqn:E.
  - rewrite H2; [lia | reflexivity].
  - apply H1. discriminate.
Qed.

Lemma key_up_selection_ok (s : _PanelPromptSession) :
  selection_ok s -> selection_ok (key_up s).
Proof.
  intros Hs. unfold key_up.
  destruct (truthy (filtered_items s)) eqn:Et; cbn [andb]; [|exact Hs].
  destruct (Z.gtb_spec (selected_index s) 0) as [Hg|Hg]; [|exact Hs].
  apply truthy_true_iff in Et. destruct Hs as [H1 _]. specialize (H1 Et).
  split; cbn; intros; [lia | contradiction].
Qed.

Lemma key_down_selection_ok (s : _PanelPromptSession) :
  selection_ok s -> selection_ok (key_down s).
Proof.
  intros Hs. unfold key_down.
  destruct (truthy (filtered_items s)) eqn:Et; cbn [andb]; [|exact Hs].
  destruct (Z.ltb_spec (selected_index s) (len (filtered_items s) - 1)) as [Hg|Hg];
    [|exact Hs].
  apply truthy_true_iff in Et. destruct Hs as [H1 _]. specialize (H1 Et).
  split; cbn; intros; [lia | contradiction].
Qed.

Lemma accept_selection_index (s s1 : _PanelPromptSession) :
  _accept_selection s = Ok s1 ->
  selected_index s1 = selected_index s /\ filtered_items s1 = filtered_items s /\
  choices s1 = choices s /\ completer s1 = completer s.
Proof.
  unfold _accept_selection. destruct (truthy (filtered_items s)).
  - intros H. inv_bind H. injection H as <-. cbn. repeat split.
  - intros [= <-]. repeat split.
Qed.

(** Every key that leaves the session running keeps the selection inside
    the list. *)
Lemma handle_selection_ok (s s' : _PanelPromptSession) (w : Env) (k : key) :
  selection_ok s -> handle s w k = Ok (Editing s') -> selection_ok s'.
Proof.
  intros Hs H. pose proof (selection_ok_nonneg s Hs) as H0.
  destruct k; cbn [handle] in H.
  - injection H as <-. now apply key_up_selection_ok.
  - injection H as <-. now apply key_down_selection_ok.
  - inv_bind H. injection H as <-. unfold key_tab in Ha.
    destruct (truthy (filtered_items s)).
    + inv_bind Ha. apply accept_selection_index in Ha0.
      eapply filter_items_selection_ok; [|exact Ha]. destruct Ha0 as [-> _]. exact H0.
    + injection Ha as <-. exact Hs.
  - inv_bind H. discriminate.
  - inv_bind H. injection H as <-. unfold key_escape in Ha.
    eapply filter_items_selection_ok; [|exact Ha]. exact H0.
  - inv_bind H. injection H as <-. unfold key_backspace in Ha.
    destruct (truthy (input_text s)).
    + eapply filter_items_selection_ok; [|exact Ha]. exact H0.
    + injection Ha as <-. exact Hs.
  - inv_bind H. injection H as <-. unfold key_c_u in Ha.
    eapply filter_items_selection_ok; [|exact Ha]. exact H0.
  - discriminate.
  - destruct (existsb (Z.eqb c) BOUND_CHARACTERS).
    + inv_bind H. injection H as <-. unfold key_char in Ha.
      eapply filter_items_selection_ok; [|exact Ha]. exact H0.
    + injection H as <-. exact Hs.
Qed.

Lemma init_selection_ok prompt chs cmp rows (w : Env) (s : _PanelPromptSession) :
  __init__ prompt chs cmp rows w = Ok s -> selection_ok s.
Proof.
  unfold __init__. intros H. eapply filter_items_selection_ok; [|exact H]. cbn. lia.
Qed.

Lemma reachable_selection_ok (s : _PanelPromptSession) :
  reachable s -> selection_ok s.
Proof.
  induction 1 as [prompt chs cmp rows w s H | s w k s' _ IH H].
  - eapply init_selection_ok. exact H.
  - eapply handle_selection_ok; eassumption.
Qed.

(** C1.  Selection-index invariant: in every reachable state, and so after
    every key (character, backspace, clear, up, down, tab) and every
    recomputation, the index is at least 0 and below the length of a
    non-empty filtered list and is 0 for an empty one; every recomputation
    sets the index to the minimum of the previous index and of
    [max (len filtered - 1) 0]. *)
Theorem selection_index_invariant :
  (forall s, reachable s -> selection_ok s) /\
  (forall s w k s', selection_ok s -> handle s w k = Ok (Editing s') -> selection_ok s') /\
  (forall s w s', selection_ok s -> filter_items s w = Ok s' -> selection_ok s') /\
  (forall s w s', filter_items s w = Ok s' ->
     selected_index s' =
       Z.min (selected_index s) (Z.max (len (filtered_items s') - 1) 0)).
Proof.
  split; [exact reachable_selection_ok|].
  split; [intros s w k s'; apply handle_selection_ok|].
  split.
  - intros s w s' Hs H. eapply filter_items_selection_ok; [|exact H].
    now apply selection_ok_nonneg.
  - intros s w s' H. now apply filter_items_fields in H.
Qed.

(** The states the event loop passes through are reachable. *)
Lemma reachable_run (events : list (key * Env)) :
  forall s s', reachable s -> run s events = Ok (Editing s') -> reachable s'.
Proof.
  induction events as [|[k w] rest IH]; intros s s' Hr H.
  - injection H as <-. exact Hr.
  - cbn [run] in H. apply bind_Ok in H. destruct H as [t [Ht H]].
    destruct t as [s1| |]; try discriminate.
    eapply IH; [|exact H]. eapply reachable_key; eassumption.
Qed.

Lemma reachable_prompt prompt chs cmp rows (w : Env) (events : list (key * Env))
    (s : _PanelPromptSession) :
  complete_panel_prompt prompt chs cmp rows w events = Ok (Editing s) -> reachable s.
Proof.
  unfold complete_panel_prompt. intros H. apply bind_Ok in H.
  destruct H as [s0 [H0 H]]. eapply reachable_run; [|exact H].
  eapply reachable_init. exact H0.
Qed.

(** ** What the keys do to a session *)

(** A key that leaves the session running leaves it unchanged, moves the
    selection, or replaces the buffer and recomputes. *)
Lemma handle_cases (s s' : _PanelPromptSession) (w : Env) (k : key) :
  handle s w k = Ok (Editing s') ->
  s' = s \/ s' = key_up s \/ s' = key_down s \/
  exists t, filter_items (set_input_text s t) w = Ok s'.
Proof.
  intros H. destruct k; cbn [handle] in H.
  - injection H as <-. auto.
  - injection H as <-. auto.
  - inv_bind H. injection H as <-. unfold key_tab, _accept_selection in Ha.
    destruct (truthy (filtered_items s)).
    + inv_bind Ha. inv_bind Ha0. injection Ha0 as <-. eauto.
    + injection Ha as <-. auto.
  - inv_bind H. discriminate.
  - inv_bind H. injection H as <-. unfold key_escape in Ha. eauto.
  - inv_bind H. injection H as <-. unfold key_backspace in Ha.
    destruct (truthy (input_text s)); [eauto | injection Ha as <-; auto].
  - inv_bind H. injection H as <-. unfold key_c_u in Ha. eauto.
  - discriminate.
  - destruct (existsb (Z.eqb c) BOUND_CHARACTERS).
    + inv_bind H. injection H as <-. unfold key_char in Ha. eauto.
    + injection H as <-. auto.
Qed.

Lemma key_up_fields (s : _PanelPromptSession) :
  input_text (key_up s) = input_text s /\
  filtered_items (key_up s) = filtered_items s /\
  choices (key_up s) = choices s /\ completer (key_up s) = completer s.
Proof. unfold key_up. destruct (_ && _); cbn; tauto. Qed.

Lemma key_down_fields (s : _PanelPromptSession) :
  input_text (key_down s) = input_text s /\
  filtered_items (key_down s) = filtered_items s /\
  choices (key_down s) = choices s /\ completer (key_down s) = completer s.
Proof. unfold key_down. destruct (_ && _); cbn; tauto. Qed.

(** The list [filter_items] leaves for a blank buffer is empty, whatever the
    candidate source. *)
Lemma filter_items_blank (s : _PanelPromptSession) (w : Env) :
  strip (input_text s) = [] ->
  filter_items s w =
    Ok (set_selected_index (set_filtered_items s []) (Z.min (selected_index s) 0)).
Proof.
  intros H. unfold filter_items. rewrite H. reflexivity.
Qed.

(** The list the static variant leaves for a buffer that is not blank. *)
Lemma filter_items_static (s : _PanelPromptSession) (w : Env) :
  completer s = None -> strip (input_text s) <> [] ->
  exists s', filter_items s w = Ok s' /\
    filtered_items s' =
      filter (fun item => contains (lower unicode_lower item)
                            (lower unicode_lower (input_text s)))
        (choices_or_empty s).
Proof.
  intros Hc Hb. unfold filter_items. apply truthy_true_iff in Hb. rewrite Hb, Hc.
  cbn [negb bind]. eexists. split; reflexivity.
Qed.

(** Only an exception outside [Exception], raised by the completer function,
    leaves [filter_items]. *)
Lemma filter_items_raise (s : _PanelPromptSession) (w : Env) (e : exn) :
  filter_items s w = Raise e ->
  is_Exception e = false /\
  exists f, completer s = Some f /\ f (input_text s) w = Raise e.
Proof.
  unfold filter_items. intros H. apply bind_Raise in H.
  destruct H as [H | [a [_ H]]]; [|discriminate].
  destruct (negb (truthy (strip (input_text s)))); [discriminate|].
  destruct (completer s) as [f|]; [|discriminate].
  apply bind_Raise in H. destruct H as [H | [a [_ H]]]; [|discriminate].
  unfold try_except_Exception in H.
  destruct (f (input_text s) w) as [l|e'] eqn:E; [discriminate|].
  destruct (is_Exception e') eqn:Ee; [discriminate|].
  injection H as <-. split; [exact Ee | eauto].
Qed.

Lemma reachable_blank (s : _PanelPromptSession) :
  reachable s -> strip (input_text s) = [] -> filtered_items s = [].
Proof.
  assert (Hf : forall s0 w s', filter_items s0 w = Ok s' ->
                 strip (input_text s') = [] -> filtered_items s' = []).
  { intros s0 w s' H Hb. pose proof (filter_items_fields _ _ _ H) as (Hi & _).
    rewrite Hi in Hb. rewrite (filter_items_blank _ w Hb) in H.
    injection H as <-. reflexivity. }
  induction 1 as [prompt chs cmp rows w s H | s w k s' _ IH H].
  - unfold __init__ in H. eapply Hf. exact H.
  - apply handle_cases in H. destruct H as [-> | [-> | [-> | [t H]]]].
    + exact IH.
    + destruct (key_up_fields s) as (-> & -> & _). exact IH.
    + destruct (key_down_fields s) as (-> & -> & _). exact IH.
    + eapply Hf. exact H.
Qed.

Lemma reachable_static_incl (s : _PanelPromptSession) :
  reachable s -> completer s = None ->
  incl (filtered_items s) (choices_or_empty s).
Proof.
  assert (Hf : forall s0 w s', filter_items s0 w = Ok s' -> completer s' = None ->
                 incl (filtered_items s') (choices_or_empty s')).
  { intros s0 w s' H Hc.
    pose proof (filter_items_fields _ _ _ H) as (Hi & Hch & Hcm & _).
    rewrite Hcm in Hc. unfold choices_or_empty. rewrite Hch.
    destruct (strip (input_text s0)) as [|c l] eqn:Eb.
    - rewrite (filter_items_blank _ w Eb) in H. injection H as <-.
      cbn. intros x [].
    - destruct (filter_items_static s0 w Hc) as [s2 [H2 Hl]];
        [rewrite Eb; discriminate|].
      rewrite H in H2. injection H2 as <-. rewrite Hl. apply incl_filter. }
  induction 1 as [prompt chs cmp rows w s H | s w k s' _ IH H].
  - unfold __init__ in H. eapply Hf. exact H.
  - apply handle_cases in H. destruct H as [-> | [-> | [-> | [t H]]]].
    + exact IH.
    + unfold choices_or_empty.
      destruct (key_up_fields s) as (_ & -> & -> & ->). exact IH.
    + unfold choices_or_empty.
      destruct (key_down_fields s) as (_ & -> & -> & ->). exact IH.
    + eapply Hf. exact H.
Qed.

(** ** Indexing *)

Lemma selection_getitem (s : _PanelPromptSession) :
  selection_ok s -> filtered_items s <> [] ->
  exists c, getitem (filtered_items s) (selected_index s) = Ok c /\
            nth_error (filtered_items s) (Z.to_nat (selected_index s)) = Some c.
Proof.
  intros [H1 _] Hne. apply getitem_in_range. auto.
Qed.

(** With the selection inside the list a key raises only what the completer
    function raised, and that is outside [Exception]. *)
Lemma handle_raise (s : _PanelPromptSession) (w : Env) (k : key) (e : exn) :
  selection_ok s -> handle s w k = Raise e -> is_Exception e = false.
Proof.
  intros Hs H. destruct k; cbn [handle] in H; try discriminate.
  (* Escape and control-U recompute for the empty buffer, which never calls
     the completer: they are among the cases that cannot raise. *)
  - apply bind_Raise in H. destruct H as [H | [a [_ H]]]; [|discriminate].
    unfold key_tab in H. destruct (truthy (filtered_items s)) eqn:Et; [|discriminate].
    apply truthy_true_iff in Et.
    destruct (selection_getitem s Hs Et) as [c [Hc _]].
    unfold _accept_selection in H. apply truthy_true_iff in Et. rewrite Et, Hc in H.
    cbn [bind] in H. now apply filter_items_raise in H.
  - apply bind_Raise in H. destruct H as [H | [a [_ H]]]; [|discriminate].
    unfold key_enter in H. destruct (truthy (filtered_items s)) eqn:Et.
    + apply truthy_true_iff in Et. destruct (selection_getitem s Hs Et) as [c [Hc _]].
      rewrite Hc in H. destruct (negb _); discriminate.
    + rewrite andb_false_r in H. discriminate.
  - apply bind_Raise in H. destruct H as [H | [a [_ H]]]; [|discriminate].
    unfold key_backspace in H. destruct (truthy (input_text s)); [|discriminate].
    now apply filter_items_raise in H.
  - destruct (existsb (Z.eqb c) BOUND_CHARACTERS); [|discriminate].
    apply bind_Raise in H. destruct H as [H | [a [_ H]]]; [|discriminate].
    unfold key_char in H. now apply filter_items_raise in H.
Qed.

(** ** Static filter *)

Lemma filter_subsequence {A} (f : A -> bool) (l : list A) :
  subsequence (filter f l) l.
Proof.
  induction l as [|x l IH]; simpl; [constructor|].
  destruct (f x); now constructor.
Qed.

Lemma map_contains_iff (f : char -> char) (item buffer : str) :
  (exists pre post, map f item = pre ++ map f buffer ++ post) <->
  (exists pre mid post, item = pre ++ mid ++ post /\ map f mid = map f buffer).
Proof.
  split.
  - intros [pre [post H]].
    apply map_eq_app in H. destruct H as [l1 [l2 (-> & _ & H)]].
    apply map_eq_app in H. destruct H as [mid [l3 (-> & Hm & _)]].
    exists l1, mid, l3. split; [reflexivity | exact Hm].
  - intros [pre [mid [post [-> Hm]]]].
    exists (map f pre), (map f post). rewrite !map_app, Hm. reflexivity.
Qed.

Lemma lower_ascii (t : str) :
  forallb isascii t = true -> lower unicode_lower t = map ascii_lower t.
Proof. intros H. unfold lower. rewrite H. reflexivity. Qed.

(** C7 (amended).  Static filter: with no completer and a buffer that does
    not strip to nothing, the filtered list is the choices whose lower-cased
    form has the lower-cased raw buffer as a substring, in the order of the
    choice list; when the buffer and the choices are ASCII these are the
    choices of which some substring is the buffer up to the case of its
    letters; for the choices com.whatsapp and com.spotify.music and the
    buffer spot it is com.spotify.music alone. *)
Theorem static_filter_contract :
  (forall s w, completer s = None -> strip (input_text s) <> [] ->
     exists s', filter_items s w = Ok s' /\
       filtered_items s' =
         filter (fun item => contains (lower unicode_lower item)
                               (lower unicode_lower (input_text s)))
           (choices_or_empty s) /\
       (forall item, In item (filtered_items s') <->
          In item (choices_or_empty s) /\
          exists pre post,
            lower unicode_lower item =
              pre ++ lower unicode_lower (input_text s) ++ post) /\
       subsequence (filtered_items s') (choices_or_empty s) /\
       (forallb isascii (input_text s) = true ->
        Forall (fun item => forallb isascii item = true) (choices_or_empty s) ->
        forall item, In item (filtered_items s') <->
          In item (choices_or_empty s) /\
          exists pre mid post,
            item = pre ++ mid ++ post /\
            map ascii_lower mid = map ascii_lower (input_text s))) /\
  (forall prompt rows width inner old_items old_index w,
     exists s',
       filter_items
         (mkSession prompt (Some [lit "com.whatsapp"; lit "com.spotify.music"])
            None rows width inner (lit "spot") old_items old_index) w = Ok s' /\
       filtered_items s' = [lit "com.spotify.music"]).
Proof.
  split.
  - intros s w Hc Hb. destruct (filter_items_static s w Hc Hb) as [s' [H Hl]].
    exists s'. split; [exact H|]. split; [exact Hl|]. rewrite Hl.
    assert (Hin : forall item,
              In item (filter (fun item => contains (lower unicode_lower item)
                                             (lower unicode_lower (input_text s)))
                         (choices_or_empty s)) <->
              In item (choices_or_empty s) /\
              exists pre post,
                lower unicode_lower item =
                  pre ++ lower unicode_lower (input_text s) ++ post).
    { intros item. rewrite filter_In, contains_iff. reflexivity. }
    split; [exact Hin|]. split; [apply filter_subsequence|].
    intros Ha Hall item. rewrite Hin. rewrite Forall_forall in Hall.
    split.
    + intros [Hi Hex]. split; [exact Hi|].
      rewrite (lower_ascii item (Hall item Hi)), (lower_ascii _ Ha) in Hex.
      now apply map_contains_iff.
    + intros [Hi Hex]. split; [exact Hi|].
      rewrite (lower_ascii item (Hall item Hi)), (lower_ascii _ Ha).
      now apply map_contains_iff.
  - intros. eexists. split; reflexivity.
Qed.

(** ** Tab *)

Lemma filter_single (f : str -> bool) (l : list str) (c : str) :
  NoDup l -> In c l -> f c = true ->
  (forall item, In item l -> f item = true -> item = c) ->
  filter f l = [c].
Proof.
  intros Hnd Hin Hfc Hu. induction l as [|x l IH]; [destruct Hin|].
  apply NoDup_cons_iff in Hnd. destruct Hnd as [Hx Hnd].
  assert (Hnone : ~ In c l -> filter f l = []).
  { intros Hc. destruct (filter f l) as [|y r] eqn:E; [reflexivity|].
    assert (Hy : In y (filter f l)) by (rewrite E; now left).
    apply filter_In in Hy. destruct Hy as [Hy1 Hy2].
    exfalso. apply Hc. rewrite <- (Hu y); [exact Hy1 | now right | exact Hy2]. }
  simpl. destruct (list_eq_dec Z.eq_dec x c) as [->|Hne].
  - rewrite Hfc, Hnone by exact Hx. reflexivity.
  - destruct (f x) eqn:Efx.
    + exfalso. apply Hne. apply Hu; [now left | exact Efx].
    + destruct Hin as [Hin|Hin]; [contradiction|].
      apply IH; [exact Hnd | exact Hin |].
      intros item Hi. apply Hu. now right.
Qed.

(** C3 (amended).  Tab in the static variant: the buffer becomes the
    highlighted candidate, and the recomputed list is, in the order of the
    choices, exactly the choices whose lower-cased form contains the
    lower-cased candidate, the candidate among them (the list is empty for a
    candidate that strips to nothing); when besides the choices are without
    repetition and no other choice passes that test, the recomputed list is
    that candidate alone with the selection at 0. *)
Theorem tab_narrowing (s : _PanelPromptSession) (w : Env) :
  reachable s -> completer s = None -> filtered_items s <> [] ->
  exists c s',
    nth_error (filtered_items s) (Z.to_nat (selected_index s)) = Some c /\
    handle s w Tab = Ok (Editing s') /\
    input_text s' = c /\
    (strip c = [] -> filtered_items s' = []) /\
    (strip c <> [] ->
     filtered_items s' =
       filter (fun item => contains (lower unicode_lower item)
                             (lower unicode_lower c))
         (choices_or_empty s) /\
     (forall item, In item (filtered_items s') <->
        In item (choices_or_empty s) /\
        exists pre post,
          lower unicode_lower item = pre ++ lower unicode_lower c ++ post) /\
     subsequence (filtered_items s') (choices_or_empty s) /\
     In c (filtered_items s') /\
     (NoDup (choices_or_empty s) ->
      (forall item, In item (choices_or_empty s) ->
         contains (lower unicode_lower item) (lower unicode_lower c) = true ->
         item = c) ->
      filtered_items s' = [c] /\ selected_index s' = 0)).
Proof.
  intros Hr Hc Hne.
  pose proof (reachable_selection_ok s Hr) as Hs.
  destruct (selection_getitem s Hs Hne) as [c [Hg Hn]].
  pose proof (reachable_static_incl s Hr Hc _ (getitem_In _ _ _ Hg)) as Hin.
  assert (Hstep : forall s', filter_items (set_input_text s c) w = Ok s' ->
                    handle s w Tab = Ok (Editing s')).
  { intros s' H. cbn [handle]. unfold key_tab, _accept_selection.
    apply truthy_true_iff in Hne. rewrite Hne, Hg. cbn [bind]. rewrite H.
    reflexivity. }
  destruct (strip c) as [|x r] eqn:Eb.
  - exists c. eexists. split; [exact Hn|]. split.
    + apply Hstep. apply filter_items_blank. cbn [input_text set_input_text]. exact Eb.
    + split; [reflexivity|]. split; [intros _; reflexivity | intros F; now elim F].
  - destruct (filter_items_static (set_input_text s c) w Hc) as [s' [H Hl]];
      [cbn [input_text set_input_text]; rewrite Eb; discriminate|].
    exists c, s'. split; [exact Hn|]. split; [now apply Hstep|].
    pose proof (filter_items_fields _ _ _ H) as (Hi & _ & _ & _ & Hidx).
    split; [exact Hi|]. split; [intros F; rewrite Eb in F; discriminate F|]. intros _.
    cbn [input_text set_input_text] in Hl.
    change (choices_or_empty (set_input_text s c)) with (choices_or_empty s) in Hl.
    split; [exact Hl|]. split.
    { intros item. rewrite Hl, filter_In, contains_iff. reflexivity. }
    split; [rewrite Hl; apply filter_subsequence|]. split.
    + rewrite Hl. apply filter_In. split; [exact Hin | apply contains_refl].
    + intros Hnd Hu.
      assert (Hone : filtered_items s' = [c]).
      { rewrite Hl.
        apply filter_single;
          [exact Hnd | exact Hin | apply contains_refl | exact Hu]. }
      split; [exact Hone|]. rewrite Hidx, Hone.
      change (selected_index (set_input_text s c)) with (selected_index s).
      change (len [c]) with 1.
      pose proof (selection_ok_nonneg s Hs). lia.
Qed.

(** ** Enter *)

(** C8.  Enter semantics: in a state whose selection is inside the list,
    enter ends the session with the buffer when the buffer is not empty, else
    with the highlighted candidate when the filtered list is not empty, else
    with the empty string; in a state the keys can reach, an empty buffer has
    an empty list, so the value is the buffer. *)
Theorem enter_semantics (s : _PanelPromptSession) (w : Env) :
  selection_ok s ->
  exists text,
    handle s w Enter = Ok (Accepted text) /\
    (forall rest, run s ((Enter, w) :: rest) = Ok (Accepted text)) /\
    (input_text s <> [] -> text = input_text s) /\
    (input_text s = [] -> filtered_items s <> [] ->
     nth_error (filtered_items s) (Z.to_nat (selected_index s)) = Some text) /\
    (input_text s = [] -> filtered_items s = [] -> text = []) /\
    (reachable s -> text = input_text s).
Proof.
  intros Hs.
  assert (H : exists text, key_enter s = Ok text /\
    (input_text s <> [] -> text = input_text s) /\
    (input_text s = [] -> filtered_items s <> [] ->
     nth_error (filtered_items s) (Z.to_nat (selected_index s)) = Some text) /\
    (input_text s = [] -> filtered_items s = [] -> text = [])).
  { unfold key_enter. destruct (input_text s) as [|c t] eqn:Et.
    - destruct (filtered_items s) as [|x l] eqn:El.
      + exists []. cbn. repeat split; congruence.
      + destruct (selection_getitem s Hs) as [a [Ha Hn]]; [congruence|].
        rewrite El in Ha, Hn. exists a. cbn [truthy negb andb].
        repeat split; congruence.
    - exists (c :: t). cbn. repeat split; congruence. }
  destruct H as [text (He & H1 & H2 & H3)]. exists text.
  assert (Hh : handle s w Enter = Ok (Accepted text)).
  { cbn [handle]. rewrite He. reflexivity. }
  split; [exact Hh|]. split.
  { intros rest. cbn [run]. rewrite Hh. reflexivity. }
  repeat split; auto.
  intros Hr. destruct (input_text s) as [|c t] eqn:Et.
  - apply H3; [reflexivity|]. apply reachable_blank; [exact Hr|].
    rewrite Et. reflexivity.
  - apply H1. discriminate.
Qed.

(** ** Rendering *)

Lemma len_cons {A} (x : A) (l : list A) : len (x :: l) = 1 + len l.
Proof. unfold len. cbn [List.length]. lia. Qed.

Lemma panel_lines_app (a b : FormattedText) :
  panel_lines (a ++ b) = panel_lines a + panel_lines b.
Proof. unfold panel_lines. rewrite filter_app. apply len_app. Qed.

Lemma has_panel_app (a b : FormattedText) :
  has_panel (a ++ b) = has_panel a || has_panel b.
Proof. unfold has_panel. apply existsb_app. Qed.

Lemma line_feeds_app (a b : FormattedText) :
  line_feeds (a ++ b) = line_feeds a + line_feeds b.
Proof. unfold line_feeds. rewrite flat_map_app, filter_app. apply len_app. Qed.

Lemma line_feeds_cons (f : fragment) (t : FormattedText) :
  line_feeds (f :: t) = len (filter (Z.eqb NEWLINE) (snd f)) + line_feeds t.
Proof. unfold line_feeds. cbn [flat_map]. rewrite filter_app. apply len_app. Qed.

Lemma no_line_feed_count (t : str) :
  no_line_feed t -> len (filter (Z.eqb NEWLINE) t) = 0.
Proof.
  intros Hn. destruct (filter (Z.eqb NEWLINE) t) as [|c r] eqn:E; [reflexivity|].
  assert (Hc : In c (filter (Z.eqb NEWLINE) t)) by (rewrite E; now left).
  apply filter_In in Hc. destruct Hc as [Hc1 Hc2]. apply Z.eqb_eq in Hc2.
  subst c. contradiction.
Qed.

Lemma count_app (a b : str) :
  len (filter (Z.eqb NEWLINE) (a ++ b)) =
  len (filter (Z.eqb NEWLINE) a) + len (filter (Z.eqb NEWLINE) b).
Proof. rewrite filter_app. apply len_app. Qed.

Lemma no_line_feed_app (a b : str) :
  no_line_feed a -> no_line_feed b -> no_line_feed (a ++ b).
Proof.
  unfold no_line_feed. intros Ha Hb H. apply in_app_or in H.
  destruct H; [now apply Ha | now apply Hb].
Qed.

Lemma no_line_feed_repeat (c : char) (n : nat) :
  c <> NEWLINE -> no_line_feed (repeat c n).
Proof. intros Hc H. apply repeat_spec in H. congruence. Qed.

Lemma In_firstn {A} (x : A) (n : nat) (l : list A) : In x (firstn n l) -> In x l.
Proof.
  revert l. induction n as [|n IH]; intros [|y l]; simpl; try tauto.
  intros [H|H]; [now left | right; now apply IH].
Qed.

Lemma In_slice_to {A} (x : A) (l : list A) (k : Z) : In x (slice_to l k) -> In x l.
Proof. unfold slice_to. destruct (k <? 0); apply In_firstn. Qed.

Lemma no_line_feed_truncate (text : str) (width : Z) :
  no_line_feed text -> no_line_feed (_truncate text width).
Proof.
  intros Hn. unfold _truncate.
  destruct (width <=? 0); [intros []|].
  destruct (len text <=? width); [exact Hn|].
  destruct (width =? 1).
  - intros [H|[]]. discriminate.
  - apply no_line_feed_app.
    + intros H. apply Hn. eapply In_slice_to. exact H.
    + intros [H|[]]. discriminate.
Qed.

Lemma no_line_feed_ljust (text : str) (width : Z) :
  no_line_feed text -> no_line_feed (ljust text width).
Proof.
  intros Hn. unfold ljust. apply no_line_feed_app; [exact Hn|].
  apply no_line_feed_repeat. discriminate.
Qed.

Lemma no_line_feed_center (text : str) (width : Z) (fill : char) :
  no_line_feed text -> fill <> NEWLINE -> no_line_feed (center text width fill).
Proof.
  intros Hn Hf. unfold center. destruct (_ <=? 0); [exact Hn|].
  repeat apply no_line_feed_app; auto using no_line_feed_repeat.
Qed.

Lemma panel_header_lines (s : _PanelPromptSession) (title : str) :
  panel_lines (_panel_header s title) = 1 /\
  has_panel (_panel_header s title) = true /\
  (no_line_feed title -> line_feeds (_panel_header s title) = 1).
Proof.
  unfold _panel_header. split; [|split].
  - unfold panel_lines, closes_line. cbn [filter fst snd].
    replace (endswith _ [NEWLINE]) with true; [reflexivity|].
    symmetry. apply endswith_char. eexists. rewrite !app_assoc. reflexivity.
  - reflexivity.
  - intros Hn. rewrite line_feeds_cons. cbn [snd].
    rewrite !count_app, (no_line_feed_count (center _ _ _)).
    + reflexivity.
    + apply no_line_feed_center; [|discriminate].
      repeat apply no_line_feed_app; auto; intros [H|[]]; discriminate.
Qed.

Lemma panel_footer_lines (s : _PanelPromptSession) :
  panel_lines (_panel_footer s) = 1 /\ line_feeds (_panel_footer s) = 1.
Proof.
  unfold _panel_footer. split.
  - unfold panel_lines, closes_line. cbn [filter fst snd].
    replace (endswith _ [NEWLINE]) with true; [reflexivity|].
    symmetry. apply endswith_char. eexists. rewrite !app_assoc. reflexivity.
  - rewrite line_feeds_cons. cbn [snd].
    rewrite !count_app, (no_line_feed_count (repeat _ _)).
    + reflexivity.
    + apply no_line_feed_repeat. discriminate.
Qed.

Lemma panel_row_lines (s : _PanelPromptSession) (text : str) (style : string) :
  String.eqb style "class:panel-border" = false ->
  panel_lines (_panel_row s text style) = 1 /\
  (no_line_feed text -> line_feeds (_panel_row s text style) = 1).
Proof.
  intros Hst. unfold _panel_row. split.
  - unfold panel_lines, closes_line. cbn [filter fst snd]. rewrite Hst.
    reflexivity.
  - intros Hn. rewrite !line_feeds_cons. cbn [snd].
    rewrite (no_line_feed_count (ljust _ _)) by (now apply no_line_feed_ljust).
    reflexivity.
Qed.

(** The loop of placeholder rows. *)
Lemma placeholder_rows (s : _PanelPromptSession) (l : list Z) (acc : FormattedText) :
  exists rows,
    for_each (fun lines _ => Ok (lines ++ _panel_row s [] "class:panel-placeholder"))
      l acc = Ok (acc ++ rows) /\
    panel_lines rows = len l /\ line_feeds rows = len l.
Proof.
  revert acc. induction l as [|x l IH]; intros acc.
  - exists []. rewrite app_nil_r. repeat split.
  - cbn [for_each bind].
    destruct (IH (acc ++ _panel_row s [] "class:panel-placeholder"))
      as [rows (H & Hp & Hf)].
    exists (_panel_row s [] "class:panel-placeholder" ++ rows).
    destruct (panel_row_lines s [] "class:panel-placeholder" eq_refl) as [Hr1 Hr2].
    rewrite H, panel_lines_app, line_feeds_app, Hp, Hf, Hr1, Hr2, len_cons, app_assoc
      by (intros []).
    repeat split.
Qed.

Lemma suggestion_row_ok (s : _PanelPromptSession) (suggestions : list str)
    (lines : FormattedText) (idx : Z) :
  0 <= idx ->
  exists row,
    suggestion_row s suggestions lines idx = Ok (lines ++ row) /\
    panel_lines row = 1 /\
    (Forall no_line_feed suggestions -> line_feeds row = 1).
Proof.
  intros H0. unfold suggestion_row.
  destruct (Z.ltb_spec idx (len suggestions)) as [Hlt|Hge].
  - destruct (getitem_in_range suggestions idx (conj H0 Hlt)) as [item [Hg Hn]].
    rewrite Hg. cbn [bind fst snd]. eexists. split; [reflexivity|].
    assert (Hst : String.eqb
                    (if idx =? selected_index s then "class:selected-line"
                     else "class:panel-line") "class:panel-border" = false)
      by (destruct (idx =? selected_index s); reflexivity).
    destruct (panel_row_lines s
                ((if idx =? selected_index s then [MARKER; SPACE] else [SPACE; SPACE]) ++
                 _truncate item
                   (panel_inner_width s -
                    len (if idx =? selected_index s then [MARKER; SPACE]
                         else [SPACE; SPACE]))) _ Hst) as [Hr1 Hr2].
    split; [exact Hr1|]. intros Hall. apply Hr2.
    apply no_line_feed_app.
    + destruct (idx =? selected_index s); intros [H|[H|[]]]; discriminate.
    + apply no_line_feed_truncate. rewrite Forall_forall in Hall. apply Hall.
      eapply nth_error_In. exact Hn.
  - cbn [bind fst snd]. eexists. split; [reflexivity|].
    destruct (panel_row_lines s [] "class:panel-placeholder" eq_refl) as [Hr1 Hr2].
    split; [exact Hr1 | intros _; apply Hr2; intros []].
Qed.

(** The loop of suggestion rows over indexes that are not negative. *)
Lemma suggestion_rows (s : _PanelPromptSession) (suggestions : list str)
    (l : list Z) (acc : FormattedText) :
  Forall (fun i => 0 <= i) l ->
  exists rows,
    for_each (suggestion_row s suggestions) l acc = Ok (acc ++ rows) /\
    panel_lines rows = len l /\
    (Forall no_line_feed suggestions -> line_feeds rows = len l).
Proof.
  intros Hl. revert acc. induction Hl as [|x l Hx _ IH]; intros acc.
  - exists []. rewrite app_nil_r. repeat split.
  - cbn [for_each].
    destruct (suggestion_row_ok s suggestions acc x Hx) as [row (Hr & Hp & Hf)].
    rewrite Hr. cbn [bind].
    destruct (IH (acc ++ row)) as [rows (H & Hp' & Hf')].
    exists (row ++ rows). rewrite H, app_assoc, panel_lines_app, Hp, Hp', len_cons.
    repeat split. intros Hall. rewrite line_feeds_app, Hf, Hf' by exact Hall.
    reflexivity.
Qed.

Lemma range_nonneg (n : Z) : Forall (fun i => 0 <= i) (range n).
Proof.
  unfold range. apply Forall_forall. intros i Hi.
  apply in_map_iff in Hi. destruct Hi as [k [<- _]]. lia.
Qed.

Lemma len_range (n : Z) : len (range n) = Z.max n 0.
Proof. unfold range, len. rewrite length_map, length_seq. lia. Qed.

(** [render_panel] never raises; the panel has a row for the message or for
    every index of [range(max_rows)] between its two borders. *)
Lemma render_panel_total (s : _PanelPromptSession) :
  exists panel,
    render_panel s = Ok panel /\
    has_panel panel = true /\
    panel_lines panel =
      (if truthy (filtered_items s) then Z.max (max_rows s) 0
       else Z.max (max_rows s) 1) + 2 /\
    (Forall no_line_feed (filtered_items s) ->
     line_feeds panel = panel_lines panel).
Proof.
  unfold render_panel. destruct (truthy (filtered_items s)); cbn [negb].
  - destruct (suggestion_rows s (slice_to (filtered_items s) (max_rows s))
                (range (max_rows s)) (_panel_header s (lit "Suggestions"))
                (range_nonneg _)) as [rows (H & Hp & Hf)].
    rewrite H. cbn [bind]. eexists. split; [reflexivity|].
    destruct (panel_header_lines s (lit "Suggestions")) as (Hh1 & Hh2 & Hh3).
    destruct (panel_footer_lines s) as [Hf1 Hf2].
    split; [|split].
    + rewrite <- app_assoc, has_panel_app, Hh2. reflexivity.
    + rewrite !panel_lines_app, Hh1, Hp, Hf1, len_range. lia.
    + intros Hall. rewrite !panel_lines_app, !line_feeds_app, Hh1, Hp, Hf1, Hf2, Hh3, Hf.
      * reflexivity.
      * apply Forall_forall. intros x Hx. rewrite Forall_forall in Hall.
        apply Hall. eapply In_slice_to. exact Hx.
      * vm_compute. intuition discriminate.
  - destruct (placeholder_rows s (range (max_rows s - 1))
                (_panel_header s (lit "No results") ++
                 _panel_row s (_truncate (lit "Tidak ada hasil") (panel_inner_width s))
                   "class:no-results")) as [rows (H & Hp & Hf)].
    rewrite H. cbn [bind]. eexists. split; [reflexivity|].
    destruct (panel_header_lines s (lit "No results")) as (Hh1 & Hh2 & Hh3).
    destruct (panel_footer_lines s) as [Hf1 Hf2].
    destruct (panel_row_lines s (_truncate (lit "Tidak ada hasil") (panel_inner_width s))
                "class:no-results" eq_refl) as [Hr1 Hr2].
    split; [|split].
    + rewrite <- !app_assoc, has_panel_app, Hh2. reflexivity.
    + rewrite !panel_lines_app, Hh1, Hr1, Hp, Hf1, len_range. lia.
    + intros _. rewrite !panel_lines_app, !line_feeds_app, Hh1, Hr1, Hp, Hf1, Hf2, Hh3, Hf, Hr2.
      * reflexivity.
      * apply no_line_feed_truncate. vm_compute. intuition discriminate.
      * vm_compute. intuition discriminate.
Qed.

Lemma render_content_shape (s : _PanelPromptSession) :
  exists panel,
    render_panel s = Ok panel /\
    render_content s =
      Ok (if truthy (input_text s) then
            [("class:prompt"%string, prompt_text s);
             ("class:input"%string, input_text s);
             (""%string, [NEWLINE; NEWLINE])] ++ panel ++
            [(""%string, [NEWLINE]);
             ("class:footer"%string, lit "Tab: isi dari pilihan | Ctrl+C: batal")]
          else
            [("class:prompt"%string, prompt_text s);
             ("class:input"%string, input_text s);
             ("class:footer"%string, lit "Tab: isi dari pilihan | Ctrl+C: batal")]).
Proof.
  destruct (render_panel_total s) as [panel [H _]]. exists panel.
  split; [exact H|]. unfold render_content. rewrite H.
  destruct (truthy (input_text s)); cbn [bind app]; [|reflexivity].
  rewrite <- app_assoc. reflexivity.
Qed.

(** C2 (amended).  Panel height: with a non-empty buffer and [max_rows >= 0],
    and [max_rows >= 1] when there is no candidate, the panel that is
    rendered has exactly [max_rows + 2] lines, each closed by a border
    fragment, whether there are no, one, fewer than [max_rows] or more
    candidates; these are also the line feeds sent to the terminal when no
    candidate contains a line feed. *)
Theorem panel_height (s : _PanelPromptSession) :
  input_text s <> [] ->
  0 <= max_rows s ->
  filtered_items s <> [] \/ 1 <= max_rows s ->
  exists panel,
    render_panel s = Ok panel /\
    render_content s =
      Ok ([("class:prompt"%string, prompt_text s);
           ("class:input"%string, input_text s);
           (""%string, [NEWLINE; NEWLINE])] ++ panel ++
          [(""%string, [NEWLINE]);
           ("class:footer"%string, lit "Tab: isi dari pilihan | Ctrl+C: batal")]) /\
    panel_lines panel = max_rows s + 2 /\
    (Forall no_line_feed (filtered_items s) -> line_feeds panel = max_rows s + 2).
Proof.
  intros Hb Hrows Hcase.
  destruct (render_content_shape s) as [panel [Hp Hc]].
  destruct (render_panel_total s) as [panel' (Hp' & _ & Hl & Hf)].
  rewrite Hp in Hp'. injection Hp' as <-.
  exists panel. split; [exact Hp|]. split.
  { rewrite Hc. apply truthy_true_iff in Hb. rewrite Hb. reflexivity. }
  assert (Hn : panel_lines panel = max_rows s + 2).
  { rewrite Hl. destruct (filtered_items s) as [|c l]; cbn [truthy].
    - destruct Hcase as [Hcase|Hcase]; [now elim Hcase | lia].
    - lia. }
  split; [exact Hn|]. intros Hall. rewrite Hf by exact Hall. exact Hn.
Qed.

(** C4 (amended).  Empty or whitespace-only buffer: for either candidate
    source the recomputation gives an empty candidate list; no panel is
    rendered when the buffer is empty, and a panel is rendered when the
    buffer holds whitespace. *)
Theorem blank_buffer_policy (s : _PanelPromptSession) (w : Env) :
  forallb isspace (input_text s) = true ->
  exists s' parts,
    filter_items s w = Ok s' /\
    filtered_items s' = [] /\
    render_content s' = Ok parts /\
    has_panel parts = truthy (input_text s).
Proof.
  intros Hb. apply strip_nil_iff in Hb.
  pose proof (filter_items_blank s w Hb) as H.
  destruct (render_content_shape
              (set_selected_index (set_filtered_items s []) (Z.min (selected_index s) 0)))
    as [panel [Hp Hc]].
  destruct (render_panel_total
              (set_selected_index (set_filtered_items s []) (Z.min (selected_index s) 0)))
    as [panel' (Hp' & Hhas & _)].
  rewrite Hp in Hp'. injection Hp' as <-.
  eexists. eexists. split; [exact H|]. split; [reflexivity|].
  split; [exact Hc|]. cbn [input_text set_selected_index set_filtered_items].
  destruct (truthy (input_text s)); [|reflexivity].
  rewrite !has_panel_app, Hhas. reflexivity.
Qed.

(** C10.  Indexing safety: in a reachable state no key raises [IndexError]
    and rendering does not either; the index expression of the tab and enter
    paths is in bounds when the list is not empty, and is not evaluated when
    the list is empty. *)
Theorem indexing_safety (s : _PanelPromptSession) :
  reachable s ->
  (forall w k, handle s w k <> Raise IndexError) /\
  render_content s <> Raise IndexError /\
  (filtered_items s <> [] ->
   exists c, getitem (filtered_items s) (selected_index s) = Ok c) /\
  (filtered_items s = [] ->
   forall w, key_tab s w = Ok s /\ key_enter s = Ok (input_text s)).
Proof.
  intros Hr. pose proof (reachable_selection_ok s Hr) as Hs.
  split; [|split; [|split]].
  - intros w k H. apply (handle_raise s w k _ Hs) in H. discriminate.
  - destruct (render_content_shape s) as [panel [_ H]]. rewrite H. discriminate.
  - intros Hne. destruct (selection_getitem s Hs Hne) as [c [Hc _]]. eauto.
  - intros He w. unfold key_tab, key_enter. rewrite He. cbn [truthy].
    rewrite andb_false_r. split; reflexivity.
Qed.

(** * Further properties of the program *)

(** ** Recomputation twice *)

(** X1.  Recomputing twice in the same outside world changes nothing the
    second time: the list and the clamped index are those of the first
    recomputation. *)
Theorem recompute_idempotent (s s' : _PanelPromptSession) (w : Env) :
  filter_items s w = Ok s' -> filter_items s' w = Ok s'.
Proof.
  intros H. pose proof (filter_items_shape s s' w H) as Hs.
  pose proof (filter_items_fields s s' w H) as (Hi & Hch & Hcm & _ & Hidx).
  destruct s as [p ch cm rows pw piw txt items idx].
  destruct s' as [p' ch' cm' rows' pw' piw' txt' items' idx'].
  cbn in Hs, Hi, Hch, Hcm, Hidx. injection Hs as -> -> -> -> -> -> -> _.
  unfold filter_items, choices_or_empty in *.
  cbn [input_text completer choices] in *.
  assert (Hfin : forall l, l = items' ->
            Ok (set_selected_index
                  (set_filtered_items
                     (mkSession p ch cm rows pw piw txt items' idx') l)
                  (Z.min
                     (selected_index
                        (set_filtered_items
                           (mkSession p ch cm rows pw piw txt items' idx') l))
                     (Z.max
                        (len
                           (filtered_items
                              (set_filtered_items
                                 (mkSession p ch cm rows pw piw txt items' idx') l)) - 1)
                        0))) =
            Ok (mkSession p ch cm rows pw piw txt items' idx')).
  { intros l ->. unfold set_selected_index, set_filtered_items.
    cbn [prompt_text choices completer max_rows panel_width panel_inner_width
         input_text filtered_items selected_index].
    f_equal. f_equal. lia. }
  destruct (negb (truthy (strip txt))).
  - cbn [bind] in *. apply Hfin. now injection H.
  - destruct cm as [f|].
    + destruct (try_except_Exception (f txt w) []) as [l|e]; [|discriminate].
      cbn [bind] in *. apply Hfin. now injection H.
    + cbn [bind] in *. apply Hfin. now injection H.
Qed.

(** ** The splitter loses nothing *)

Lemma in_split_last (c : char) (l : str) :
  In c l -> exists a b, l = a ++ c :: b /\ ~ In c b.
Proof.
  induction l as [|x l IH]; [intros []|].
  intros Hin. destruct (in_dec Z.eq_dec c l) as [Hl|Hl].
  - destruct (IH Hl) as [a [b [-> Hb]]]. exists (x :: a), b. split; [reflexivity | exact Hb].
  - destruct Hin as [->|Hin]; [|contradiction].
    exists [], l. split; [reflexivity | exact Hl].
Qed.

(** X2.  The two parts of a split query give the query back when joined; the
    fragment has no space, and the lead is empty or ends in a space. *)
Theorem split_completion_query_lossless (text lead fragment : str) :
  _split_completion_query text = (lead, fragment) ->
  lead ++ fragment = text /\
  ~ In SPACE fragment /\
  (lead = [] \/ endswith lead [SPACE] = true).
Proof.
  intros H. destruct (in_dec Z.eq_dec SPACE text) as [Hin|Hn].
  - destruct (in_split_last SPACE text Hin) as [a [b [-> Hb]]].
    change (a ++ SPACE :: b) with (a ++ [SPACE] ++ b) in H.
    rewrite (split_at_last_space a b Hb) in H. injection H as <- <-.
    split; [now rewrite <- app_assoc|]. split; [exact Hb|].
    right. apply endswith_char. exists a. reflexivity.
  - rewrite (split_without_space text Hn) in H. injection H as <- <-.
    split; [reflexivity|]. split; [exact Hn | now left].
Qed.

(** ** The static list follows the buffer *)

Lemma filter_items_static_ok (s : _PanelPromptSession) (w : Env) :
  completer s = None ->
  exists s', filter_items s w = Ok s' /\ filtered_items s' = static_candidates s.
Proof.
  intros Hc. unfold filter_items, static_candidates. rewrite Hc.
  destruct (negb (truthy (strip (input_text s)))); cbn [bind];
    eexists; split; reflexivity.
Qed.

(** What no key changes: the configuration of the session. *)
Lemma handle_configuration (s s' : _PanelPromptSession) (w : Env) (k : key) :
  handle s w k = Ok (Editing s') ->
  prompt_text s' = prompt_text s /\ choices s' = choices s /\
  completer s' = completer s /\ max_rows s' = max_rows s /\
  panel_width s' = panel_width s /\ panel_inner_width s' = panel_inner_width s.
Proof.
  intros H. apply handle_cases in H. destruct H as [-> | [-> | [-> | [t H]]]].
  - repeat split.
  - unfold key_up. destruct (_ && _); repeat split.
  - unfold key_down. destruct (_ && _); repeat split.
  - apply filter_items_shape in H. rewrite H. repeat split.
Qed.

(** X3.  In the static variant the list of a reachable session is always the
    one computed from the current buffer: empty for a blank buffer, else the
    choices that contain it, whatever keys led there. *)
Theorem static_list_in_sync (s : _PanelPromptSession) :
  reachable s -> completer s = None -> filtered_items s = static_candidates s.
Proof.
  assert (Hf : forall s0 w s', filter_items s0 w = Ok s' -> completer s' = None ->
                 filtered_items s' = static_candidates s').
  { intros s0 w s' H Hc.
    pose proof (filter_items_fields s0 s' w H) as (Hi & Hch & Hcm & _).
    rewrite Hcm in Hc. destruct (filter_items_static_ok s0 w Hc) as [s2 [H2 Hl]].
    rewrite H in H2. injection H2 as <-. rewrite Hl.
    unfold static_candidates, choices_or_empty. rewrite Hi, Hch. reflexivity. }
  induction 1 as [prompt chs cmp rows w s H | s w k s' _ IH H].
  - unfold __init__ in H. eapply Hf. exact H.
  - pose proof (handle_configuration s s' w k H) as (_ & Hch & Hcm & _).
    apply handle_cases in H. destruct H as [-> | [-> | [-> | [t H]]]].
    + exact IH.
    + intros Hc. unfold static_candidates, choices_or_empty in *.
      destruct (key_up_fields s) as (-> & -> & -> & _). rewrite Hcm in Hc. auto.
    + intros Hc. unfold static_candidates, choices_or_empty in *.
      destruct (key_down_fields s) as (-> & -> & -> & _). rewrite Hcm in Hc. auto.
    + eapply Hf. exact H.
Qed.

(** ** Typing and deleting *)

Lemma slice_to_drop_last {A} (l : list A) (x : A) : slice_to (l ++ [x]) (-1) = l.
Proof.
  unfold slice_to, len. cbn [Z.ltb Z.compare]. rewrite length_app. cbn [List.length].
  replace (Z.to_nat (Z.of_nat (List.length l + 1) + -1)) with (List.length l) by lia.
  rewrite firstn_app, Nat.sub_diag, firstn_all. cbn. apply app_nil_r.
Qed.

(** X4.  In the static variant, typing a bound character and then pressing
    backspace gives back the buffer and the list of before; the selection
    does not move down. *)
Theorem type_then_backspace (s : _PanelPromptSession) (w : Env) (c : char) :
  reachable s -> completer s = None ->
  existsb (Z.eqb c) BOUND_CHARACTERS = true ->
  exists s1 s2,
    handle s w (Character c) = Ok (Editing s1) /\
    handle s1 w Backspace = Ok (Editing s2) /\
    input_text s1 = input_text s ++ [c] /\
    input_text s2 = input_text s /\
    filtered_items s2 = filtered_items s /\
    selected_index s2 <= selected_index s.
Proof.
  intros Hr Hc Hb.
  destruct (filter_items_static_ok (set_input_text s (input_text s ++ [c])) w Hc)
    as [s1 [H1 Hl1]].
  pose proof (filter_items_fields _ s1 w H1) as (Hi1 & Hch1 & Hcm1 & _ & Hx1).
  cbn [input_text set_input_text choices completer selected_index] in Hi1, Hch1, Hcm1, Hx1.
  assert (Hc1 : completer (set_input_text s1 (slice_to (input_text s1) (-1))) = None)
    by (cbn; congruence).
  destruct (filter_items_static_ok _ w Hc1) as [s2 [H2 Hl2]].
  pose proof (filter_items_fields _ s2 w H2) as (Hi2 & _ & _ & _ & Hx2).
  cbn [input_text set_input_text selected_index] in Hi2, Hx2.
  rewrite Hi1, slice_to_drop_last in Hi2.
  exists s1, s2. split.
  { cbn [handle]. rewrite Hb. unfold key_char. rewrite H1. reflexivity. }
  split.
  { cbn [handle]. unfold key_backspace. rewrite Hi1.
    replace (truthy (input_text s ++ [c])) with true
      by (destruct (input_text s); reflexivity).
    rewrite Hi1 in H2. rewrite H2. reflexivity. }
  split; [exact Hi1|]. split; [exact Hi2|]. split.
  - rewrite Hl2, (static_list_in_sync s Hr Hc).
    unfold static_candidates, choices_or_empty.
    cbn [input_text set_input_text choices]. rewrite Hi1, slice_to_drop_last, Hch1.
    reflexivity.
  - lia.
Qed.

(** ** Clearing *)

Lemma reachable_widths (s : _PanelPromptSession) :
  reachable s -> panel_width s = 46 /\ panel_inner_width s = 42.
Proof.
  induction 1 as [prompt chs cmp rows w s H | s w k s' _ IH H].
  - unfold __init__ in H. apply filter_items_shape in H. rewrite H. split; reflexivity.
  - pose proof (handle_configuration s s' w k H) as (_ & _ & _ & _ & -> & ->).
    exact IH.
Qed.

(** X5.  Escape and control-U put a reachable session back into the state
    its constructor built: empty buffer, empty list, selection 0; neither
    calls the completer, so neither can raise. *)
Theorem clear_restores_initial_state (s : _PanelPromptSession) (w : Env) :
  reachable s ->
  exists s0,
    __init__ (prompt_text s) (choices s) (completer s) (max_rows s) w = Ok s0 /\
    handle s w Escape = Ok (Editing s0) /\
    handle s w ControlU = Ok (Editing s0) /\
    input_text s0 = [] /\ filtered_items s0 = [] /\ selected_index s0 = 0.
Proof.
  intros Hr. destruct (reachable_widths s Hr) as [Hw Hiw].
  pose proof (selection_ok_nonneg s (reachable_selection_ok s Hr)) as H0.
  exists (mkSession (prompt_text s) (choices s) (completer s) (max_rows s) 46 42 [] [] 0).
  split; [reflexivity|].
  assert (Hk : filter_items (set_input_text s []) w =
               Ok (mkSession (prompt_text s) (choices s) (completer s) (max_rows s)
                     46 42 [] [] 0)).
  { rewrite filter_items_blank by reflexivity.
    unfold set_selected_index, set_filtered_items, set_input_text. cbn.
    rewrite Hw, Hiw. repeat f_equal. lia. }
  split; [cbn [handle]; unfold key_escape; rewrite Hk; reflexivity|].
  split; [cbn [handle]; unfold key_c_u; rewrite Hk; reflexivity|].
  repeat split.
Qed.

(** ** Moving the selection *)

Lemma iter_key_down_fields (s : _PanelPromptSession) (n : nat) :
  filtered_items (Nat.iter n key_down s) = filtered_items s /\
  input_text (Nat.iter n key_down s) = input_text s.
Proof.
  induction n as [|n IH]; [split; reflexivity|].
  change (Nat.iter (S n) key_down s) with (key_down (Nat.iter n key_down s)).
  destruct (key_down_fields (Nat.iter n key_down s)) as (-> & -> & _).
  exact IH.
Qed.

Lemma iter_key_up_fields (s : _PanelPromptSession) (n : nat) :
  filtered_items (Nat.iter n key_up s) = filtered_items s /\
  input_text (Nat.iter n key_up s) = input_text s.
Proof.
  induction n as [|n IH]; [split; reflexivity|].
  change (Nat.iter (S n) key_up s) with (key_up (Nat.iter n key_up s)).
  destruct (key_up_fields (Nat.iter n key_up s)) as (-> & -> & _).
  exact IH.
Qed.

(** X6.  The arrow keys saturate: [n] presses of down from a valid selection
    lead to the row [min (index + n) (len - 1)], [n] presses of up to
    [max (index - n) 0], the list and the buffer staying as they are; and up
    undoes down unless the selection was on the last row. *)
Theorem arrows_saturate (s : _PanelPromptSession) (n : nat) :
  selection_ok s -> filtered_items s <> [] ->
  selected_index (Nat.iter n key_down s) =
    Z.min (selected_index s + Z.of_nat n) (len (filtered_items s) - 1) /\
  selected_index (Nat.iter n key_up s) = Z.max (selected_index s - Z.of_nat n) 0 /\
  filtered_items (Nat.iter n key_down s) = filtered_items s /\
  filtered_items (Nat.iter n key_up s) = filtered_items s /\
  input_text (Nat.iter n key_down s) = input_text s /\
  input_text (Nat.iter n key_up s) = input_text s /\
  (selected_index s < len (filtered_items s) - 1 -> key_up (key_down s) = s).
Proof.
  intros [Hs _] Hne. specialize (Hs Hne).
  assert (Ht : truthy (filtered_items s) = true) by now apply truthy_true_iff.
  split; [|split; [|split; [|split; [|split; [|split]]]]].
  - induction n as [|n IH]; [cbn; lia|].
    change (Nat.iter (S n) key_down s) with (key_down (Nat.iter n key_down s)).
    unfold key_down at 1.
    destruct (iter_key_down_fields s n) as [-> _]. rewrite Ht. cbn [andb].
    destruct (Z.ltb_spec (selected_index (Nat.iter n key_down s))
                (len (filtered_items s) - 1)); cbn [selected_index set_selected_index];
      lia.
  - induction n as [|n IH]; [cbn; lia|].
    change (Nat.iter (S n) key_up s) with (key_up (Nat.iter n key_up s)).
    unfold key_up at 1.
    destruct (iter_key_up_fields s n) as [-> _]. rewrite Ht. cbn [andb].
    destruct (Z.gtb_spec (selected_index (Nat.iter n key_up s)) 0);
      cbn [selected_index set_selected_index]; lia.
  - apply iter_key_down_fields.
  - apply iter_key_up_fields.
  - apply iter_key_down_fields.
  - apply iter_key_up_fields.
  - intros Hlt. unfold key_down. rewrite Ht. cbn [andb].
    destruct (Z.ltb_spec (selected_index s) (len (filtered_items s) - 1)); [|lia].
    unfold key_up. cbn [filtered_items set_selected_index selected_index].
    rewrite Ht. cbn [andb].
    destruct (Z.gtb_spec (selected_index s + 1) 0); [|lia].
    destruct s as [p ch cm rows pw piw txt items idx]. unfold set_selected_index.
    cbn [prompt_text choices completer max_rows panel_width panel_inner_width
         input_text filtered_items selected_index] in *.
    f_equal. lia.
Qed.

(** ** The event loop *)

(** [run] over two sequences of key events, one after the other. *)
Lemma run_app (s : _PanelPromptSession) (e1 e2 : list (key * Env)) :
  run s (e1 ++ e2) =
  (t <- run s e1 ;;
   match t with
   | Editing s' => run s' e2
   | _ => Ok t
   end).
Proof.
  revert s. induction e1 as [|[k w] e1 IH]; intros s; [reflexivity|].
  cbn [app run]. destruct (handle s w k) as [t|e]; [|reflexivity].
  cbn [bind]. destruct t as [s'| |]; [apply IH | reflexivity | reflexivity].
Qed.

Lemma enter_reachable (s : _PanelPromptSession) (w : Env) :
  reachable s -> handle s w Enter = Ok (Accepted (input_text s)).
Proof.
  intros Hr. cbn [handle]. unfold key_enter.
  destruct (input_text s) as [|c t] eqn:Et; [|reflexivity].
  rewrite (reachable_blank s Hr) by (rewrite Et; reflexivity). reflexivity.
Qed.

Lemma run_typing (t : str) (w : Env) :
  forall s, completer s = None ->
  forallb (fun c => existsb (Z.eqb c) BOUND_CHARACTERS) t = true ->
  exists s', run s (typing t w) = Ok (Editing s') /\
             input_text s' = input_text s ++ t.
Proof.
  induction t as [|c t IH]; intros s Hc Hb.
  - exists s. split; [reflexivity | now rewrite app_nil_r].
  - cbn [forallb] in Hb. apply andb_true_iff in Hb. destruct Hb as [Hb1 Hb2].
    destruct (filter_items_static_ok (set_input_text s (input_text s ++ [c])) w Hc)
      as [s1 [H1 _]].
    pose proof (filter_items_fields _ s1 w H1) as (Hi1 & _ & Hcm1 & _).
    cbn [input_text set_input_text completer] in Hi1, Hcm1.
    destruct (IH s1 (eq_trans Hcm1 Hc) Hb2) as [s' [H' Hi']].
    exists s'. split.
    + cbn [typing map run handle]. rewrite Hb1. unfold key_char. rewrite H1.
      cbn [bind]. exact H'.
    + rewrite Hi', Hi1, <- app_assoc. reflexivity.
Qed.

(** X8.  In the static variant, typing bound characters and pressing enter
    returns exactly the characters typed, whatever the choices and whatever
    follows the enter key. *)
Theorem typed_text_is_accepted (prompt : str) (chs : option (list str)) (rows : Z)
    (w w1 w2 : Env) (t : str) (rest : list (key * Env)) :
  forallb (fun c => existsb (Z.eqb c) BOUND_CHARACTERS) t = true ->
  complete_panel_prompt prompt chs None rows w (typing t w1 ++ (Enter, w2) :: rest)
  = Ok (Accepted t).
Proof.
  intros Hb. unfold complete_panel_prompt.
  set (chs' := match chs with Some (c :: l) => c :: l | _ => DEFAULT_CHOICES end).
  assert (H0 : __init__ prompt (Some chs') None rows w =
               Ok (mkSession prompt (Some chs') None rows 46 42 [] [] 0))
    by reflexivity.
  rewrite H0. cbn [bind].
  destruct (run_typing t w1 (mkSession prompt (Some chs') None rows 46 42 [] [] 0)
              eq_refl Hb) as [s' [H' Hi']].
  cbn [input_text app] in Hi'.
  assert (Hr : reachable s').
  { eapply reachable_run; [|exact H']. eapply reachable_init. exact H0. }
  rewrite run_app, H'. cbn [bind run]. rewrite (enter_reachable s' w2 Hr).
  cbn [bind]. rewrite Hi'. reflexivity.
Qed.

(** ** The two entry points *)

Lemma run_configuration (events : list (key * Env)) :
  forall s s', run s events = Ok (Editing s') ->
  choices s' = choices s /\ completer s' = completer s.
Proof.
  induction events as [|[k w] rest IH]; intros s s' H.
  - injection H as <-. split; reflexivity.
  - cbn [run] in H. apply bind_Ok in H. destruct H as [t [Ht H]].
    destruct t as [s1| |]; try discriminate.
    destruct (IH s1 s' H) as [-> ->].
    pose proof (handle_configuration s s1 w k Ht) as (_ & -> & -> & _).
    split; reflexivity.
Qed.

(** X9.  [PanelInput.prompt] and [complete_panel_prompt] run the same
    session unless the choices are an empty list; with an empty list
    [PanelInput] keeps it, so that its static variant never lists a
    candidate, where [complete_panel_prompt] falls back on the default
    choices. *)
Theorem entry_points_agree (chs : option (list str))
    (cmp : option (str -> Env -> result (list str))) (rows : Z) (p : str) (w : Env)
    (events : list (key * Env)) :
  (chs <> Some [] ->
   prompt (PanelInput__init__ chs cmp rows) p w events =
   complete_panel_prompt p chs cmp rows w events) /\
  (chs = Some [] -> cmp = None ->
   (forall s, prompt (PanelInput__init__ chs cmp rows) p w events = Ok (Editing s) ->
      filtered_items s = []) /\
   complete_panel_prompt p chs cmp rows w events =
   complete_panel_prompt p None cmp rows w events).
Proof.
  split.
  - intros Hne. unfold prompt, complete_panel_prompt, PanelInput__init__.
    cbn [_choices _completer _max_rows].
    destruct chs as [[|c l]|]; [now elim Hne | reflexivity | reflexivity].
  - intros -> ->. split; [|reflexivity].
    intros s H. unfold prompt, PanelInput__init__ in H.
    cbn [_choices _completer _max_rows] in H.
    apply bind_Ok in H. destruct H as [s0 [H0 H]].
    assert (Hr : reachable s).
    { eapply reachable_run; [|exact H]. eapply reachable_init. exact H0. }
    destruct (run_configuration events s0 s H) as [Hch Hcm].
    injection H0 as <-. cbn [choices completer] in Hch, Hcm.
    rewrite (static_list_in_sync s Hr Hcm). unfold static_candidates, choices_or_empty.
    rewrite Hch. destruct (negb _); reflexivity.
Qed.

(** ** The box is a rectangle *)

Lemma text_of_app (a b : FormattedText) : text_of (a ++ b) = text_of a ++ text_of b.
Proof. unfold text_of. apply flat_map_app. Qed.

Lemma line_widths_line (body rest : str) (n : Z) :
  no_line_feed body ->
  line_widths_from n (body ++ NEWLINE :: rest) =
  (n + len body) :: line_widths_from 0 rest.
Proof.
  revert n. induction body as [|c body IH]; intros n Hn.
  - cbn [app line_widths_from]. rewrite Z.eqb_refl. change (len (@nil char)) with 0.
    now rewrite Z.add_0_r.
  - cbn [app line_widths_from]. destruct (Z.eqb_spec c NEWLINE) as [->|Hc].
    + exfalso. apply Hn. now left.
    + rewrite IH by (intros H; apply Hn; now right). rewrite len_cons.
      f_equal. lia.
Qed.

Lemma len_repeat {A} (x : A) (n : nat) : len (repeat x n) = Z.of_nat n.
Proof. unfold len. now rewrite repeat_length. Qed.

Lemma len_ljust (t : str) (width : Z) : len (ljust t width) = Z.max (len t) width.
Proof. unfold ljust. rewrite len_app, len_repeat. lia. Qed.

Lemma land_one_bit (a : Z) : 0 <= Z.land a 1 <= 1.
Proof.
  assert (E : Z.land a 1 = a mod 2).
  { change 1 with (Z.ones 1). rewrite Z.land_ones by lia. reflexivity. }
  rewrite E. pose proof (Z.mod_pos_bound a 2 eq_refl). lia.
Qed.

Lemma len_center (t : str) (width : Z) (fill : char) :
  len (center t width fill) = Z.max (len t) width.
Proof.
  unfold center. destruct (Z.leb_spec (width - len t) 0) as [H|H]; [lia|].
  pose proof (land_one_bit (Z.land (width - len t) width)) as Hb.
  assert (Hlo : 0 <= (width - len t) / 2) by (apply Z.div_pos; lia).
  assert (Hhi : (width - len t) / 2 + Z.land (Z.land (width - len t) width) 1
                <= width - len t).
  { destruct (Z.eq_dec (width - len t) 1) as [E|E].
    - rewrite E in *. change (1 / 2) with 0. lia.
    - assert ((width - len t) / 2 < width - len t) by (apply Z.div_lt; lia).
      assert (2 * ((width - len t) / 2) <= width - len t)
        by (apply Z.mul_div_le; lia).
      lia. }
  rewrite !len_app, !len_repeat. lia.
Qed.

Lemma len_truncate_le (t : str) (width : Z) :
  0 <= width -> len (_truncate t width) <= width.
Proof.
  intros Hw. unfold _truncate, slice_to.
  destruct (Z.leb_spec width 0); [change (len (@nil char)) with 0; lia|].
  destruct (Z.leb_spec (len t) width); [assumption|].
  destruct (Z.eqb_spec width 1); [subst; change (len [ELLIPSIS]) with 1; lia|].
  destruct (Z.ltb_spec (width - 1) 0); [lia|].
  rewrite len_app, len_firstn_le by (unfold len in *; lia).
  change (len [ELLIPSIS]) with 1. lia.
Qed.

Lemma panel_row_width (s : _PanelPromptSession) (text : str) (style : string)
    (rest : str) :
  no_line_feed text -> len text <= panel_inner_width s ->
  line_widths_from 0 (text_of (_panel_row s text style) ++ rest) =
  (panel_inner_width s + 4) :: line_widths_from 0 rest.
Proof.
  intros Hn Hl. unfold _panel_row, text_of. cbn [flat_map snd].
  rewrite app_nil_r.
  replace (([BOX_V; SPACE] ++ ljust text (panel_inner_width s) ++ [SPACE; BOX_V; NEWLINE])
           ++ rest)
    with (([BOX_V; SPACE] ++ ljust text (panel_inner_width s) ++ [SPACE; BOX_V])
          ++ NEWLINE :: rest)
    by (rewrite <- !app_assoc; reflexivity).
  rewrite line_widths_line.
  - rewrite !len_app, len_ljust. change (len [BOX_V; SPACE]) with 2.
    change (len [SPACE; BOX_V]) with 2. f_equal. lia.
  - apply no_line_feed_app; [|apply no_line_feed_app].
    + intros [H|[H|[]]]; discriminate.
    + now apply no_line_feed_ljust.
    + intros [H|[H|[]]]; discriminate.
Qed.

Lemma panel_header_width (s : _PanelPromptSession) (title rest : str) :
  no_line_feed title -> len title + 2 <= panel_width s - 2 ->
  line_widths_from 0 (text_of (_panel_header s title) ++ rest) =
  panel_width s :: line_widths_from 0 rest.
Proof.
  intros Hn Hl. unfold _panel_header, text_of. cbn [flat_map snd].
  rewrite app_nil_r.
  replace (([BOX_TL] ++ center ([SPACE] ++ title ++ [SPACE]) (panel_width s - 2) BOX_H
            ++ [BOX_TR] ++ [NEWLINE]) ++ rest)
    with (([BOX_TL] ++ center ([SPACE] ++ title ++ [SPACE]) (panel_width s - 2) BOX_H
           ++ [BOX_TR]) ++ NEWLINE :: rest)
    by (rewrite <- !app_assoc; reflexivity).
  rewrite line_widths_line.
  - rewrite !len_app, len_center, !len_app. change (len [BOX_TL]) with 1.
    change (len [BOX_TR]) with 1. change (len [SPACE]) with 1. f_equal. lia.
  - apply no_line_feed_app; [|apply no_line_feed_app].
    + intros [H|[]]; discriminate.
    + apply no_line_feed_center; [|discriminate].
      apply no_line_feed_app; [|apply no_line_feed_app];
        [intros [H|[]]; discriminate | exact Hn | intros [H|[]]; discriminate].
    + intros [H|[]]; discriminate.
Qed.

Lemma panel_footer_width (s : _PanelPromptSession) (rest : str) :
  2 <= panel_width s ->
  line_widths_from 0 (text_of (_panel_footer s) ++ rest) =
  panel_width s :: line_widths_from 0 rest.
Proof.
  intros Hl. unfold _panel_footer, text_of. cbn [flat_map snd].
  rewrite app_nil_r.
  replace (([BOX_BL] ++ repeat BOX_H (Z.to_nat (panel_width s - 2)) ++ [BOX_BR]
            ++ [NEWLINE]) ++ rest)
    with (([BOX_BL] ++ repeat BOX_H (Z.to_nat (panel_width s - 2)) ++ [BOX_BR])
          ++ NEWLINE :: rest)
    by (rewrite <- !app_assoc; reflexivity).
  rewrite line_widths_line.
  - rewrite !len_app, len_repeat. change (len [BOX_BL]) with 1.
    change (len [BOX_BR]) with 1. f_equal. lia.
  - apply no_line_feed_app; [|apply no_line_feed_app].
    + intros [H|[]]; discriminate.
    + apply no_line_feed_repeat. discriminate.
    + intros [H|[]]; discriminate.
Qed.

Lemma placeholder_rows_width (s : _PanelPromptSession) (l : list Z)
    (acc : FormattedText) :
  0 <= panel_inner_width s ->
  exists rows,
    for_each (fun lines _ => Ok (lines ++ _panel_row s [] "class:panel-placeholder"))
      l acc = Ok (acc ++ rows) /\
    forall rest,
      line_widths_from 0 (text_of rows ++ rest) =
      repeat (panel_inner_width s + 4) (List.length l) ++ line_widths_from 0 rest.
Proof.
  intros Hw. revert acc. induction l as [|x l IH]; intros acc.
  - exists []. rewrite app_nil_r. split; reflexivity.
  - cbn [for_each bind].
    destruct (IH (acc ++ _panel_row s [] "class:panel-placeholder")) as [rows [H Hr]].
    exists (_panel_row s [] "class:panel-placeholder" ++ rows).
    rewrite H, app_assoc. split; [reflexivity|]. intros rest.
    rewrite text_of_app, <- app_assoc, panel_row_width, Hr.
    + reflexivity.
    + intros [].
    + exact Hw.
Qed.

Lemma suggestion_rows_width (s : _PanelPromptSession) (suggestions : list str)
    (l : list Z) (acc : FormattedText) :
  2 <= panel_inner_width s ->
  Forall no_line_feed suggestions ->
  Forall (fun i => 0 <= i) l ->
  exists rows,
    for_each (suggestion_row s suggestions) l acc = Ok (acc ++ rows) /\
    forall rest,
      line_widths_from 0 (text_of rows ++ rest) =
      repeat (panel_inner_width s + 4) (List.length l) ++ line_widths_from 0 rest.
Proof.
  intros Hw Hall Hl. revert acc. induction Hl as [|x l Hx _ IH]; intros acc.
  - exists []. rewrite app_nil_r. split; reflexivity.
  - assert (Hrow : exists text style,
              suggestion_row s suggestions acc x = Ok (acc ++ _panel_row s text style) /\
              no_line_feed text /\ len text <= panel_inner_width s).
    { unfold suggestion_row.
      destruct (Z.ltb_spec x (len suggestions)) as [Hlt|Hge].
      - destruct (getitem_in_range suggestions x (conj Hx Hlt)) as [item [Hg Hn]].
        rewrite Hg. cbn [bind fst snd]. eexists. eexists. split; [reflexivity|].
        split.
        + apply no_line_feed_app.
          * destruct (x =? selected_index s); intros [H|[H|[]]]; discriminate.
          * apply no_line_feed_truncate. rewrite Forall_forall in Hall. apply Hall.
            eapply nth_error_In. exact Hn.
        + rewrite len_app.
          replace (len (if x =? selected_index s then [MARKER; SPACE]
                        else [SPACE; SPACE])) with 2
            by (destruct (x =? selected_index s); reflexivity).
          pose proof (len_truncate_le item (panel_inner_width s - 2) ltac:(lia)). lia.
      - cbn [bind fst snd]. eexists. eexists. split; [reflexivity|].
        split; [intros [] | change (len (@nil char)) with 0; lia]. }
    destruct Hrow as [text [style (Hr & Hn & Hlen)]].
    cbn [for_each]. rewrite Hr. cbn [bind].
    destruct (IH (acc ++ _panel_row s text style)) as [rows [H Hrows]].
    exists (_panel_row s text style ++ rows). rewrite H, app_assoc.
    split; [reflexivity|]. intros rest.
    rewrite text_of_app, <- app_assoc, panel_row_width, Hrows by assumption.
    reflexivity.
Qed.

(** X10.  The rendered panel is a rectangle: when the interior width is the
    panel width less 4, the panel is at least 15 columns wide and no
    candidate contains a line feed, every line of the panel, header and
    footer included, is exactly [panel_width] characters wide, however long
    the candidates are. *)
Theorem panel_is_rectangular (s : _PanelPromptSession) :
  panel_inner_width s = panel_width s - 4 ->
  15 <= panel_width s ->
  Forall no_line_feed (filtered_items s) ->
  exists panel,
    render_panel s = Ok panel /\
    line_widths panel =
      repeat (panel_width s)
        (Z.to_nat ((if truthy (filtered_items s) then Z.max (max_rows s) 0
                    else Z.max (max_rows s) 1) + 2)).
Proof.
  intros Hiw Hw Hall. unfold render_panel, line_widths.
  destruct (truthy (filtered_items s)); cbn [negb].
  - destruct (suggestion_rows_width s (slice_to (filtered_items s) (max_rows s))
                (range (max_rows s)) (_panel_header s (lit "Suggestions")))
      as [rows [H Hr]].
    + lia.
    + apply Forall_forall. intros x Hx. rewrite Forall_forall in Hall.
      apply Hall. eapply In_slice_to. exact Hx.
    + apply range_nonneg.
    + rewrite H. cbn [bind]. eexists. split; [reflexivity|].
      rewrite !text_of_app, <- !app_assoc, panel_header_width, Hr.
      * rewrite <- (app_nil_r (text_of (_panel_footer s))), panel_footer_width by lia.
        cbn [line_widths_from Z.eqb]. unfold range.
        rewrite length_map, length_seq, Hiw.
        replace (panel_width s - 4 + 4) with (panel_width s) by lia.
        replace (Z.to_nat (Z.max (max_rows s) 0 + 2))
          with (1 + (Z.to_nat (max_rows s) + 1))%nat by lia.
        rewrite !repeat_app. reflexivity.
      * vm_compute. intuition discriminate.
      * change (len (lit "Suggestions")) with 11. lia.
  - destruct (placeholder_rows_width s (range (max_rows s - 1))
                (_panel_header s (lit "No results") ++
                 _panel_row s (_truncate (lit "Tidak ada hasil") (panel_inner_width s))
                   "class:no-results")) as [rows [H Hr]]; [lia|].
    rewrite H. cbn [bind]. eexists. split; [reflexivity|].
    rewrite !text_of_app, <- !app_assoc, panel_header_width, panel_row_width, Hr.
    + rewrite <- (app_nil_r (text_of (_panel_footer s))), panel_footer_width by lia.
      cbn [line_widths_from Z.eqb]. unfold range.
      rewrite length_map, length_seq, Hiw.
      replace (panel_width s - 4 + 4) with (panel_width s) by lia.
      replace (Z.to_nat (Z.max (max_rows s) 1 + 2))
        with (1 + (1 + (Z.to_nat (max_rows s - 1) + 1)))%nat by lia.
      rewrite !repeat_app. reflexivity.
    + apply no_line_feed_truncate. vm_compute. intuition discriminate.
    + apply len_truncate_le. lia.
    + vm_compute. intuition discriminate.
    + change (len (lit "No results")) with 10. lia.
Qed.

(** ** The highlighted row *)

Lemma selected_rows_app (a b : FormattedText) :
  selected_rows (a ++ b) = selected_rows a + selected_rows b.
Proof. unfold selected_rows. rewrite filter_app. apply len_app. Qed.

Lemma selected_rows_row (s : _PanelPromptSession) (text : str) (style : string) :
  selected_rows (_panel_row s text style) =
  if String.eqb style "class:selected-line" then 1 else 0.
Proof.
  unfold selected_rows, _panel_row. cbn [filter fst].
  change (String.eqb "class:panel-border" "class:selected-line") with false.
  destruct (String.eqb style "class:selected-line"); reflexivity.
Qed.

Lemma suggestion_rows_selected (s : _PanelPromptSession) (suggestions : list str)
    (l : list Z) (acc : FormattedText) :
  Forall (fun i => 0 <= i) l ->
  exists rows,
    for_each (suggestion_row s suggestions) l acc = Ok (acc ++ rows) /\
    selected_rows rows =
      len (filter (fun i => (i <? len suggestions) && (i =? selected_index s)) l).
Proof.
  intros Hl. revert acc. induction Hl as [|x l Hx _ IH]; intros acc.
  - exists []. rewrite app_nil_r. split; reflexivity.
  - assert (Hrow : exists row,
              suggestion_row s suggestions acc x = Ok (acc ++ row) /\
              selected_rows row =
                if (x <? len suggestions) && (x =? selected_index s) then 1 else 0).
    { unfold suggestion_row.
      destruct (Z.ltb_spec x (len suggestions)) as [Hlt|Hge].
      - destruct (getitem_in_range suggestions x (conj Hx Hlt)) as [item [Hg _]].
        rewrite Hg. cbn [bind fst snd andb]. eexists. split; [reflexivity|].
        rewrite selected_rows_row. destruct (x =? selected_index s); reflexivity.
      - cbn [bind fst snd andb]. eexists. split; [reflexivity|].
        rewrite selected_rows_row. reflexivity. }
    destruct Hrow as [row [Hr Hsel]].
    cbn [for_each]. rewrite Hr. cbn [bind].
    destruct (IH (acc ++ row)) as [rows [H Hrows]].
    exists (row ++ rows). rewrite H, app_assoc. split; [reflexivity|].
    rewrite selected_rows_app, Hsel, Hrows. cbn [filter].
    destruct ((x <? len suggestions) && (x =? selected_index s)).
    + rewrite len_cons. reflexivity.
    + reflexivity.
Qed.

Lemma count_selected (m sel : Z) (k : nat) :
  len (filter (fun i => (i <? m) && (i =? sel)) (map Z.of_nat (seq 0 k))) =
  if (0 <=? sel) && (sel <? Z.of_nat k) && (sel <? m) then 1 else 0.
Proof.
  induction k as [|k IH].
  - cbn [seq map filter]. change (len (@nil Z)) with 0.
    destruct (Z.leb_spec 0 sel), (Z.ltb_spec sel (Z.of_nat 0)); cbn [andb];
      try reflexivity; lia.
  - rewrite seq_S, map_app, filter_app, len_app, IH. cbn [plus map filter].
    destruct (Z.leb_spec 0 sel), (Z.ltb_spec sel (Z.of_nat k)),
      (Z.ltb_spec sel (Z.of_nat (S k))), (Z.ltb_spec sel m),
      (Z.ltb_spec (Z.of_nat k) m), (Z.eqb_spec (Z.of_nat k) sel);
      cbn [andb]; try reflexivity; try lia.
Qed.

Lemma len_slice_to {A} (l : list A) (k : Z) :
  0 <= k -> len (slice_to l k) = Z.min k (len l).
Proof.
  intros Hk. unfold slice_to, len. destruct (Z.ltb_spec k 0); [lia|].
  rewrite length_firstn. lia.
Qed.

(** X11.  The panel does not scroll: a rendered panel shows exactly one row
    as the selected one when there are candidates and the selection index is
    below [max_rows], and none otherwise, so a selection moved down past the
    visible rows is not shown. *)
Theorem highlight_visibility (s : _PanelPromptSession) :
  selection_ok s ->
  exists panel,
    render_panel s = Ok panel /\
    selected_rows panel =
      if truthy (filtered_items s) && (selected_index s <? max_rows s) then 1 else 0.
Proof.
  intros Hs. unfold render_panel.
  destruct (truthy (filtered_items s)) eqn:Et; cbn [negb andb].
  - apply truthy_true_iff in Et. destruct Hs as [Hs _]. specialize (Hs Et).
    destruct (suggestion_rows_selected s (slice_to (filtered_items s) (max_rows s))
                (range (max_rows s)) (_panel_header s (lit "Suggestions"))
                (range_nonneg _)) as [rows [H Hr]].
    rewrite H. cbn [bind]. eexists. split; [reflexivity|].
    rewrite !selected_rows_app, Hr. unfold range. rewrite count_selected.
    change (selected_rows (_panel_header s (lit "Suggestions"))) with 0.
    change (selected_rows (_panel_footer s)) with 0.
    destruct (Z.ltb_spec (selected_index s) (max_rows s)) as [Hlt|Hge].
    + rewrite len_slice_to by lia.
      destruct (Z.leb_spec 0 (selected_index s)),
        (Z.ltb_spec (selected_index s) (Z.of_nat (Z.to_nat (max_rows s)))),
        (Z.ltb_spec (selected_index s) (Z.min (max_rows s) (len (filtered_items s))));
        cbn [andb]; try reflexivity; lia.
    + destruct (Z.leb_spec 0 (selected_index s)),
        (Z.ltb_spec (selected_index s) (Z.of_nat (Z.to_nat (max_rows s))));
        cbn [andb]; try reflexivity; lia.
  - destruct (placeholder_rows s (range (max_rows s - 1))
                (_panel_header s (lit "No results") ++
                 _panel_row s (_truncate (lit "Tidak ada hasil") (panel_inner_width s))
                   "class:no-results")) as [rows (H & _ & _)].
    assert (Hz : forall l acc rows',
              for_each (fun lines (_ : Z) =>
                          Ok (lines ++ _panel_row s [] "class:panel-placeholder")) l acc
              = Ok (acc ++ rows') -> selected_rows rows' = 0).
    { induction l as [|x l IH]; intros acc rows' Hl.
      - cbn [for_each] in Hl. injection Hl as Hl.
        rewrite <- (app_nil_r acc) in Hl at 1. apply app_inv_head in Hl. now subst.
      - cbn [for_each bind] in Hl.
        destruct (placeholder_rows s l (acc ++ _panel_row s [] "class:panel-placeholder"))
          as [r (Hr & _ & _)].
        rewrite Hr in Hl. injection Hl as Hl. rewrite <- app_assoc in Hl.
        apply app_inv_head in Hl. subst rows'. rewrite selected_rows_app.
        rewrite (IH _ _ Hr). reflexivity. }
    rewrite H. cbn [bind]. eexists. split; [reflexivity|].
    rewrite !selected_rows_app, (Hz _ _ _ H). reflexivity.
Qed.

End Model.

(** ** The external completer *)

Lemma filter_items_completer_raises (Env : Type) (ul : str -> str)
    (s : _PanelPromptSession Env) (w : Env)
    (f : str -> Env -> result (list str)) (e : exn) :
  completer s = Some f -> f (input_text s) w = Raise e -> is_Exception e = true ->
  exists s', filter_items ul s w = Ok s' /\ filtered_items s' = [].
Proof.
  intros Hc Hf He. unfold filter_items.
  destruct (negb (truthy (strip (input_text s)))).
  - cbn [bind]. eexists. split; reflexivity.
  - rewrite Hc, Hf. unfold try_except_Exception. rewrite He. cbn [bind filter].
    eexists. split; reflexivity.
Qed.

Lemma bash_completer_cases (query : str) (run : subprocess) :
  match run (compgen_argv (snd (_split_completion_query query))) with
  | RunRaises FileNotFoundError => bash_completer query run = Ok []
  | RunRaises e => bash_completer query run = Raise e
  | Completed rc out =>
      bash_completer query run = bash_completer query (fun _ => Completed 0 out)
  end.
Proof.
  unfold bash_completer. destruct (_split_completion_query query) as [lead fragment].
  cbn [snd]. destruct (run (compgen_argv fragment)) as [rc out|e].
  - reflexivity.
  - destruct e; reflexivity.
Qed.

(** C9 (amended).  External-completer degradation: an exception of class
    [Exception] raised by the completer function gives an empty candidate
    list for that recomputation, and only an exception outside [Exception]
    leaves the recomputation; [bash_completer] turns a missing interpreter
    into an empty list, and with it as completer every exception of class
    [Exception] raised when the process is started gives an empty list; the
    exit status is not read: the candidates come from the standard output
    whatever the status, and there are none when the output is empty. *)
Theorem completer_error_degradation :
  (forall (Env : Type) (ul : str -> str) (s : _PanelPromptSession Env) (w : Env) f e,
     completer s = Some f -> f (input_text s) w = Raise e -> is_Exception e = true ->
     exists s', filter_items ul s w = Ok s' /\ filtered_items s' = []) /\
  (forall (Env : Type) (ul : str -> str) (s : _PanelPromptSession Env) (w : Env) e,
     filter_items ul s w = Raise e -> is_Exception e = false) /\
  (forall query run,
     run (compgen_argv (snd (_split_completion_query query))) =
       RunRaises FileNotFoundError ->
     bash_completer query run = Ok []) /\
  (forall (ul : str -> str) (s : _PanelPromptSession subprocess) (run : subprocess) e,
     completer s = Some bash_completer ->
     run (compgen_argv (snd (_split_completion_query (input_text s)))) = RunRaises e ->
     is_Exception e = true ->
     exists s', filter_items ul s run = Ok s' /\ filtered_items s' = []) /\
  (forall query run rc out,
     run (compgen_argv (snd (_split_completion_query query))) = Completed rc out ->
     bash_completer query run = bash_completer query (fun _ => Completed 0 out)) /\
  (forall query run rc,
     run (compgen_argv (snd (_split_completion_query query))) = Completed rc [] ->
     bash_completer query run = Ok []).
Proof.
  split; [exact filter_items_completer_raises|].
  split.
  { intros Env ul s w e H. now apply filter_items_raise in H. }
  split.
  { intros query run H. pose proof (bash_completer_cases query run) as Hc.
    rewrite H in Hc. exact Hc. }
  split.
  { intros ul s run e Hc H He.
    pose proof (bash_completer_cases (input_text s) run) as Hb. rewrite H in Hb.
    destruct e; try discriminate.
    - unfold filter_items. rewrite Hc, Hb.
      destruct (negb (truthy (strip (input_text s)))); cbn [bind try_except_Exception filter];
        eexists; split; reflexivity.
    - eapply filter_items_completer_raises; [exact Hc | exact Hb | reflexivity].
    - eapply filter_items_completer_raises; [exact Hc | exact Hb | reflexivity]. }
  split.
  { intros query run rc out H. pose proof (bash_completer_cases query run) as Hc.
    rewrite H in Hc. exact Hc. }
  intros query run rc H. pose proof (bash_completer_cases query run) as Hc.
  rewrite H in Hc. rewrite Hc. unfold bash_completer.
  destruct (_split_completion_query query). reflexivity.
Qed.

(** * The theorems at concrete sessions *)

(** After [c] is typed against the two sample choices both are listed and
    the first is highlighted. *)
Lemma selection_index_invariant_witness :
  selection_ok
    (mkSession (Env := unit) (lit "> ")
       (Some [lit "com.whatsapp"; lit "com.spotify.music"]) None 6 46 42
       (lit "c") [lit "com.whatsapp"; lit "com.spotify.music"] 0).
Proof.
  destruct (selection_index_invariant unit (fun x => x)) as [H _].
  apply H.
  apply (reachable_prompt unit (fun x => x) (lit "> ")
           (Some [lit "com.whatsapp"; lit "com.spotify.music"]) None 6 tt
           [(Character 99, tt)]).
  vm_compute. reflexivity.
Defined.

Lemma static_filter_contract_witness :
  exists s',
    filter_items (fun x => x)
      (mkSession (Env := unit) (lit "> ")
         (Some [lit "com.whatsapp"; lit "com.Spotify.music"; lit "spotted"]) None 6 46 42
         (lit "SPOT") [] 0) tt = Ok s' /\
    filtered_items s' = [lit "com.Spotify.music"; lit "spotted"].
Proof.
  destruct (static_filter_contract unit (fun x => x)) as [H _].
  destruct (H (mkSession (Env := unit) (lit "> ")
                 (Some [lit "com.whatsapp"; lit "com.Spotify.music"; lit "spotted"])
                 None 6 46 42 (lit "SPOT") [] 0) tt)
    as [s' (H1 & H2 & _)].
  - reflexivity.
  - vm_compute. discriminate.
  - exists s'. split; [exact H1|]. rewrite H2. vm_compute. reflexivity.
Defined.

(** Tab on the first of the two sample choices narrows the list to it. *)
Lemma tab_narrowing_witness :
  exists s',
    handle (fun x => x)
      (mkSession (Env := unit) (lit "> ")
         (Some [lit "com.whatsapp"; lit "com.spotify.music"]) None 6 46 42
         (lit "c") [lit "com.whatsapp"; lit "com.spotify.music"] 0) tt Tab
      = Ok (Editing s') /\
    input_text s' = lit "com.whatsapp" /\
    filtered_items s' = [lit "com.whatsapp"] /\
    selected_index s' = 0.
Proof.
  destruct (tab_narrowing unit (fun x => x)
              (mkSession (Env := unit) (lit "> ")
                 (Some [lit "com.whatsapp"; lit "com.spotify.music"]) None 6 46 42
                 (lit "c") [lit "com.whatsapp"; lit "com.spotify.music"] 0) tt)
    as [c [s' (Hn & Hh & Hi & Hrest)]].
  - apply (reachable_prompt unit (fun x => x) (lit "> ")
             (Some [lit "com.whatsapp"; lit "com.spotify.music"]) None 6 tt
             [(Character 99, tt)]).
    vm_compute. reflexivity.
  - reflexivity.
  - discriminate.
  - vm_compute in Hn. injection Hn as <-.
    destruct Hrest as [_ Hrest].
    destruct Hrest as (_ & _ & _ & _ & Hone); [vm_compute; discriminate|].
    destruct Hone as [Hl Hx].
    + repeat constructor; vm_compute; intuition discriminate.
    + intros item Hin Hc.
      destruct Hin as [<-|[<-|[]]]; [reflexivity | vm_compute in Hc; discriminate].
    + exists s'. repeat split; assumption.
Defined.

(** Enter on a session seeded with an empty buffer and two candidates, the
    second highlighted. *)
Lemma enter_semantics_witness :
  handle (fun x => x)
    (mkSession (Env := unit) (lit "> ") None None 6 46 42 [] [lit "a"; lit "b"] 1)
    tt Enter = Ok (Accepted unit (lit "b")).
Proof.
  destruct (enter_semantics unit (fun x => x)
              (mkSession (Env := unit) (lit "> ") None None 6 46 42 []
                 [lit "a"; lit "b"] 1) tt)
    as [text (Hh & _ & _ & Hmid & _)].
  - split; cbn; intros; [vm_compute; intuition discriminate | discriminate].
  - rewrite Hh. specialize (Hmid eq_refl ltac:(discriminate)).
    vm_compute in Hmid. injection Hmid as <-. reflexivity.
Defined.

(** Three candidates in a panel of two rows. *)
Lemma panel_height_witness :
  exists panel,
    render_panel
      (mkSession (Env := unit) (lit "> ") None None 2 46 42 (lit "c")
         [lit "ca"; lit "cb"; lit "cc"] 0) = Ok panel /\
    panel_lines panel = 4 /\ line_feeds panel = 4.
Proof.
  destruct (panel_height unit
              (mkSession (Env := unit) (lit "> ") None None 2 46 42 (lit "c")
                 [lit "ca"; lit "cb"; lit "cc"] 0))
    as [panel (Hp & _ & Hl & Hf)].
  - discriminate.
  - cbn. lia.
  - left. discriminate.
  - exists panel. split; [exact Hp|]. split; [exact Hl|]. apply Hf.
    repeat constructor; vm_compute; intuition discriminate.
Defined.

(** A buffer of one space, with a completer that would offer a candidate. *)
Lemma blank_buffer_policy_witness :
  exists s' parts,
    filter_items (fun x => x)
      (mkSession (Env := unit) (lit "> ") None (Some (fun _ _ => Ok [lit "x"]))
         6 46 42 (lit " ") [lit "x"] 0) tt = Ok s' /\
    filtered_items s' = [] /\
    render_content s' = Ok parts /\
    has_panel parts = true.
Proof.
  destruct (blank_buffer_policy unit (fun x => x)
              (mkSession (Env := unit) (lit "> ") None (Some (fun _ _ => Ok [lit "x"]))
                 6 46 42 (lit " ") [lit "x"] 0) tt)
    as [s' [parts (H1 & H2 & H3 & H4)]].
  - reflexivity.
  - exists s', parts. repeat split; assumption.
Defined.

Lemma indexing_safety_witness :
  handle (fun x => x)
    (mkSession (Env := unit) (lit "> ")
       (Some [lit "com.whatsapp"; lit "com.spotify.music"]) None 6 46 42
       (lit "c") [lit "com.whatsapp"; lit "com.spotify.music"] 0) tt Tab
  <> Raise IndexError.
Proof.
  destruct (indexing_safety unit (fun x => x)
              (mkSession (Env := unit) (lit "> ")
                 (Some [lit "com.whatsapp"; lit "com.spotify.music"]) None 6 46 42
                 (lit "c") [lit "com.whatsapp"; lit "com.spotify.music"] 0))
    as [H _].
  - apply (reachable_prompt unit (fun x => x) (lit "> ")
             (Some [lit "com.whatsapp"; lit "com.spotify.music"]) None 6 tt
             [(Character 99, tt)]).
    vm_compute. reflexivity.
  - apply H.
Defined.

(** A completer function that raises, and [bash_completer] when the process
    cannot be started. *)
Lemma completer_error_degradation_witness :
  (exists s',
     filter_items (fun x => x)
       (mkSession (Env := unit) (lit "> ") None (Some (fun _ _ => Raise OtherException))
          6 46 42 (lit "ls") [lit "old"] 0) tt = Ok s' /\
     filtered_items s' = []) /\
  bash_completer (lit "ls sr") (fun _ => RunRaises FileNotFoundError) = Ok [].
Proof.
  destruct completer_error_degradation as (H1 & _ & H3 & _).
  split.
  - apply (H1 unit (fun x => x) _ tt (fun _ _ => Raise OtherException) OtherException);
      reflexivity.
  - apply H3. reflexivity.
Defined.

(** * Where the specification and the program part *)

(** C2.  With [max_rows = 0] and no candidate the panel has three lines, not
    two; with [max_rows = -1] and a candidate it has two lines, not one. *)
Lemma panel_height_counterexample :
  (exists panel,
     render_panel
       (mkSession (Env := unit) (lit "> ") None None 0 46 42 (lit "x") [] 0) = Ok panel /\
     panel_lines panel = 3 /\ line_feeds panel = 3 /\ 3 <> 0 + 2) /\
  (exists panel,
     render_panel
       (mkSession (Env := unit) (lit "> ") None None (-1) 46 42 (lit "c") [lit "c"] 0)
       = Ok panel /\
     panel_lines panel = 2 /\ line_feeds panel = 2 /\ 2 <> -1 + 2).
Proof.
  split; eexists; (split; [vm_compute; reflexivity|]);
    repeat split; vm_compute; discriminate.
Qed.

(** C3.  With the choices [ab] and [abc], the buffer [a] and the first row
    highlighted, tab fills in [ab] and the recomputed list holds both
    choices. *)
Lemma tab_narrowing_counterexample :
  exists s s',
    complete_panel_prompt (fun x => x) (lit "> ") (Some [lit "ab"; lit "abc"]) None 6 tt
      [(Character 97, tt)] = Ok (Editing s) /\
    getitem (filtered_items s) (selected_index s) = Ok (lit "ab") /\
    handle (fun x => x) s tt Tab = Ok (Editing s') /\
    input_text s' = lit "ab" /\
    filtered_items s' = [lit "ab"; lit "abc"] /\
    len (filtered_items s') <> 1.
Proof.
  eexists. eexists. split; [vm_compute; reflexivity|].
  split; [vm_compute; reflexivity|].
  split; [vm_compute; reflexivity|].
  repeat split; vm_compute; discriminate.
Qed.

(** C4.  After a space is typed the candidate list is empty and the panel
    is rendered. *)
Lemma blank_buffer_policy_counterexample :
  exists s parts,
    complete_panel_prompt (fun x => x) (lit "> ") None None 6 tt
      [(Character 32, tt)] = Ok (Editing s) /\
    input_text s = lit " " /\
    forallb isspace (input_text s) = true /\
    filtered_items s = [] /\
    render_content s = Ok parts /\
    has_panel parts = true.
Proof.
  eexists. eexists. split; [vm_compute; reflexivity|].
  split; [reflexivity|]. split; [reflexivity|]. split; [reflexivity|].
  split; [vm_compute; reflexivity|]. vm_compute. reflexivity.
Qed.

(** C9.  A process that exits with status 1 after writing a line gives a
    candidate; a completer function that raises [KeyboardInterrupt] ends the
    recomputation with that exception. *)
Lemma completer_error_degradation_counterexample :
  (exists s',
     filter_items (fun x => x)
       (mkSession (lit "> ") None (Some bash_completer) 6 46 42 (lit "x") [] 0)
       (fun _ => Completed 1 [121; NEWLINE]) = Ok s' /\
     filtered_items s' = [[121]]) /\
  filter_items (fun x => x)
    (mkSession (Env := unit) (lit "> ") None (Some (fun _ _ => Raise KeyboardInterrupt))
       6 46 42 (lit "x") [] 0) tt = Raise KeyboardInterrupt.
Proof.
  split; [eexists; split; vm_compute; reflexivity | vm_compute; reflexivity].
Qed.

(** C7.  With the two choices A-sigma and A-sigma-B (sigma the capital
    sigma), [a] typed and tab pressed on the first row, the buffer is
    A-sigma; the second choice contains the buffer as it stands, and is not
    listed: the lower-cased buffer ends in the final small sigma, the
    lower-cased choice has the other small sigma. *)
Lemma static_filter_contract_counterexample :
  exists s,
    complete_panel_prompt sigma_lower (lit "> ")
      (Some [[65; SIGMA]; [65; SIGMA; 66]]) None 6 tt
      [(Character 97, tt); (Tab, tt)] = Ok (Editing s) /\
    completer s = None /\
    choices_or_empty s = [[65; SIGMA]; [65; SIGMA; 66]] /\
    input_text s = [65; SIGMA] /\
    strip (input_text s) <> [] /\
    contains [65; SIGMA; 66] (input_text s) = true /\
    filtered_items s = [[65; SIGMA]] /\
    ~ In [65; SIGMA; 66] (filtered_items s).
Proof.
  eexists. split; [vm_compute; reflexivity|].
  split; [reflexivity|]. split; [reflexivity|]. split; [reflexivity|].
  split; [vm_compute; discriminate|]. split; [vm_compute; reflexivity|].
  split; [reflexivity|]. vm_compute. intuition discriminate.
Qed.

(** * Further properties of the external completer *)

Lemma str_eqb_eq (a b : str) : str_eqb a b = true <-> a = b.
Proof.
  revert b. induction a as [|x a IH]; intros [|y b]; cbn [str_eqb];
    try (split; [discriminate | discriminate]); [split; reflexivity|].
  rewrite andb_true_iff, Z.eqb_eq, IH. split.
  - intros [-> ->]. reflexivity.
  - intros [= -> ->]. split; reflexivity.
Qed.

Lemma mem_In (x : str) (l : list str) : mem x l = true <-> In x l.
Proof.
  unfold mem. rewrite existsb_exists. split.
  - intros [y [Hy He]]. apply str_eqb_eq in He. now subst.
  - intros H. exists x. split; [exact H | now apply str_eqb_eq].
Qed.

(** The loop of [bash_completer] from any state in which the set and the
    list hold the same strings. *)
Lemma dedup_loop (lead : str) (candidates : list str) :
  forall seen completions,
    NoDup completions -> (forall x, In x seen <-> In x completions) ->
    exists extra,
      snd (fold_left (dedup_step lead) candidates (seen, completions)) =
        completions ++ extra /\
      NoDup (completions ++ extra) /\
      (forall x, In x extra <->
         ~ In x completions /\ In x (map (app lead) candidates)) /\
      subsequence extra (map (app lead) candidates).
Proof.
  induction candidates as [|c cs IH]; intros seen completions Hnd Hsame.
  - exists []. cbn [fold_left snd map]. rewrite app_nil_r.
    split; [reflexivity|]. split; [exact Hnd|]. split; [|constructor].
    intros x. split; [intros [] | intros [_ []]].
  - cbn [fold_left dedup_step map].
    destruct (mem (lead ++ c) seen) eqn:Em; cbn [negb].
    + apply mem_In in Em. apply Hsame in Em.
      destruct (IH seen completions Hnd Hsame) as [extra (H1 & H2 & H3 & H4)].
      exists extra. split; [exact H1|]. split; [exact H2|]. split.
      * intros x. rewrite H3. split.
        -- intros [Ha Hb]. split; [exact Ha | now right].
        -- intros [Ha [Hb|Hb]]; [subst; contradiction | now split].
      * now constructor.
    + assert (Hnew : ~ In (lead ++ c) completions).
      { intros H. apply Hsame in H. apply mem_In in H. congruence. }
      destruct (IH ((lead ++ c) :: seen) (completions ++ [lead ++ c]))
        as [extra (H1 & H2 & H3 & H4)].
      * apply NoDup_app; [exact Hnd | repeat constructor; intros [] |].
        intros x Hx [<-|[]]. contradiction.
      * intros x. cbn [In]. rewrite in_app_iff, Hsame. cbn [In]. tauto.
      * exists ((lead ++ c) :: extra). rewrite <- app_assoc in H1, H2.
        split; [exact H1|]. split; [exact H2|]. split.
        -- intros x. cbn [In]. rewrite H3, in_app_iff. cbn [In].
           destruct (list_eq_dec Z.eq_dec (lead ++ c) x) as [<-|Hne]; tauto.
        -- now constructor.
Qed.

(** X12.  When the process completes, whatever its exit status, the
    completions are the lead followed by each non-empty line of its output:
    every completion is such a string and each such string is a completion,
    none occurs twice, and they keep the order in which the lines came. *)
Theorem bash_completer_completions (query : str) (run : subprocess) (rc : Z)
    (out : str) :
  run (compgen_argv (snd (_split_completion_query query))) = Completed rc out ->
  exists completions,
    bash_completer query run = Ok completions /\
    NoDup completions /\
    (forall c, In c completions <->
       exists line, In line (splitlines out) /\ line <> [] /\
                    c = fst (_split_completion_query query) ++ line) /\
    subsequence completions
      (map (app (fst (_split_completion_query query)))
         (filter truthy (splitlines out))).
Proof.
  intros H. unfold bash_completer.
  destruct (_split_completion_query query) as [lead fragment]. cbn [fst snd] in *.
  rewrite H.
  destruct (dedup_loop lead (filter truthy (splitlines out)) [] [] (NoDup_nil _)
              (fun x => conj (fun h => h) (fun h => h)))
    as [extra (H1 & H2 & H3 & H4)].
  cbn [app] in H1, H2. exists extra. rewrite H1.
  split; [reflexivity|]. split; [exact H2|]. split; [|exact H4].
  intros c. rewrite H3, in_map_iff. split.
  - intros [_ [line [<- Hl]]]. apply filter_In in Hl. destruct Hl as [Hl Ht].
    exists line. split; [exact Hl|]. split; [now apply truthy_true_iff | reflexivity].
  - intros [line (Hl & Hne & ->)]. split; [intros []|].
    exists line. split; [reflexivity|]. apply filter_In.
    split; [exact Hl | now apply truthy_true_iff].
Qed.

(** ** No line break in a completion *)

Lemma splitlines_break (cur : str) (c : char) (t : str) :
  islinebreak c = true ->
  exists t', (t' = t \/ exists d, t = d :: t') /\
             splitlines_from cur (c :: t) = rev cur :: splitlines_from [] t'.
Proof.
  intros H. cbn [splitlines_from]. rewrite H.
  assert (Hdef : exists t', (t' = t \/ exists d, t = d :: t') /\
            rev cur :: splitlines_from [] t = rev cur :: splitlines_from [] t')
    by (exists t; auto).
  destruct c as [|p|p]; try exact Hdef.
  do 4 (destruct p as [p|p|]; try exact Hdef).
  destruct t as [|d t']; try exact Hdef.
  destruct d as [|q|q]; try exact Hdef.
  do 4 (destruct q as [q|q|]; try exact Hdef).
  exists t'. split; [right; eauto | reflexivity].
Qed.

Lemma splitlines_from_clean (n : nat) :
  forall s cur, (List.length s <= n)%nat ->
    Forall (fun c => islinebreak c = false) cur ->
    Forall (Forall (fun c => islinebreak c = false)) (splitlines_from cur s).
Proof.
  induction n as [|n IH]; intros s cur Hlen Hcur.
  - destruct s; [|cbn in Hlen; lia]. cbn [splitlines_from].
    destruct (truthy cur); repeat constructor.
    apply Forall_rev. exact Hcur.
  - destruct s as [|c t].
    + cbn [splitlines_from]. destruct (truthy cur); repeat constructor.
      apply Forall_rev. exact Hcur.
    + cbn [List.length] in Hlen. destruct (islinebreak c) eqn:Eb.
      * destruct (splitlines_break cur c t Eb) as [t' [Ht ->]].
        constructor; [apply Forall_rev; exact Hcur|].
        apply IH; [|constructor].
        destruct Ht as [->|[d ->]]; cbn [List.length] in *; lia.
      * cbn [splitlines_from]. rewrite Eb. apply IH; [lia|].
        constructor; assumption.
Qed.

(** X13.  A candidate that [bash_completer] hands to the session for a
    buffer without a line feed has no line feed either, so that each takes
    one line of the panel. *)
Theorem bash_candidates_one_line (ul : str -> str)
    (s s' : _PanelPromptSession subprocess) (run : subprocess) :
  completer s = Some bash_completer ->
  no_line_feed (input_text s) ->
  filter_items ul s run = Ok s' ->
  Forall no_line_feed (filtered_items s').
Proof.
  intros Hc Hq H. unfold filter_items in H. rewrite Hc in H.
  destruct (negb (truthy (strip (input_text s)))).
  - cbn [bind] in H. injection H as <-. constructor.
  - apply bind_Ok in H. destruct H as [s1 [H1 H]]. injection H as <-.
    apply bind_Ok in H1. destruct H1 as [completions [Hb H1]]. injection H1 as <-.
    cbn [filtered_items set_selected_index set_filtered_items].
    apply Forall_forall. intros c Hin. apply filter_In in Hin. destruct Hin as [Hin _].
    unfold try_except_Exception in Hb.
    destruct (bash_completer (input_text s) run) as [l|e] eqn:Eb.
    + injection Hb as ->.
      destruct (_split_completion_query (input_text s)) as [lead fragment] eqn:Es.
      destruct (split_completion_query_lossless _ _ _ Es) as (Hjoin & _ & _).
      pose proof (bash_completer_cases (input_text s) run) as Hcase.
      rewrite Es in Hcase. cbn [snd] in Hcase.
      destruct (run (compgen_argv fragment)) as [rc out|e] eqn:Er.
      * destruct (bash_completer_completions (input_text s) run rc out)
          as [l' (Hl' & _ & Hchar & _)]; [rewrite Es; exact Er|].
        rewrite Eb in Hl'. injection Hl' as <-.
        apply Hchar in Hin. destruct Hin as [line (Hline & _ & ->)].
        rewrite Es. cbn [fst]. apply no_line_feed_app.
        -- intros Hx. apply Hq. rewrite <- Hjoin. apply in_or_app. now left.
        -- pose proof (splitlines_from_clean (List.length out) out [] (le_n _)
                         (Forall_nil _)) as Hclean.
           rewrite Forall_forall in Hclean. specialize (Hclean line Hline).
           rewrite Forall_forall in Hclean. intros Hx.
           specialize (Hclean NEWLINE Hx). discriminate.
      * destruct e; rewrite Eb in Hcase; try discriminate.
        injection Hcase as ->. destruct Hin.
    + destruct (is_Exception e); [|discriminate]. injection Hb as <-. destruct Hin.
Qed.

(** ** Quoting *)

Lemma shlex_escape_injective (s1 s2 : str) :
  flat_map (fun c => if c =? 39 then [39; 34; 39; 34; 39] else [c]) s1 =
  flat_map (fun c => if c =? 39 then [39; 34; 39; 34; 39] else [c]) s2 ->
  s1 = s2.
Proof.
  revert s2. induction s1 as [|c1 t1 IH]; intros [|c2 t2] H; cbn [flat_map] in H.
  - reflexivity.
  - destruct (c2 =? 39); discriminate.
  - destruct (c1 =? 39); discriminate.
  - destruct (Z.eqb_spec c1 39) as [->|H1], (Z.eqb_spec c2 39) as [->|H2].
    + injection H as H. f_equal. now apply IH.
    + injection H as Hc _. congruence.
    + injection H as Hc _. congruence.
    + injection H as -> H. f_equal. now apply IH.
Qed.

(** X14.  Quoting keeps fragments apart: two fragments with the same quoted
    form are the same fragment, so no two fragments lead to the same
    [compgen] command. *)
Theorem shlex_quote_injective (s1 s2 : str) :
  shlex_quote s1 = shlex_quote s2 -> s1 = s2.
Proof.
  assert (Hsafe : forall s t, forallb shlex_safe (39 :: t) = true -> s = 39 :: t -> False).
  { intros s t H _. cbn in H. discriminate. }
  assert (Hq : forall s t, s <> [] ->
            [39; 39] = [39] ++ flat_map (fun c => if c =? 39 then [39; 34; 39; 34; 39]
                                                  else [c]) s ++ [39] -> t = s -> False).
  { intros s t Hne H _. destruct s as [|c r]; [now elim Hne|].
    cbn [flat_map app] in H. destruct (c =? 39); cbn [app] in H.
    - discriminate.
    - injection H as H. destruct (flat_map _ r); discriminate. }
  unfold shlex_quote.
  destruct s1 as [|a1 r1], s2 as [|a2 r2]; cbn [truthy negb].
  - reflexivity.
  - destruct (forallb shlex_safe (a2 :: r2)) eqn:E2.
    + intros H. injection H as <- <-. cbn in E2. discriminate.
    + intros H. exfalso. eapply (Hq (a2 :: r2)); [discriminate | exact H | reflexivity].
  - destruct (forallb shlex_safe (a1 :: r1)) eqn:E1.
    + intros H. injection H as -> ->. cbn in E1. discriminate.
    + intros H. exfalso. symmetry in H.
      eapply (Hq (a1 :: r1)); [discriminate | exact H | reflexivity].
  - destruct (forallb shlex_safe (a1 :: r1)) eqn:E1,
      (forallb shlex_safe (a2 :: r2)) eqn:E2.
    + auto.
    + intros H. cbn [app] in H. injection H as -> _. cbn in E1. discriminate.
    + intros H. cbn [app] in H. injection H as <- _. cbn in E2. discriminate.
    + intros H. cbn [app] in H. injection H as H.
      apply app_inj_tail in H. destruct H as [H _].
      now apply shlex_escape_injective.
Qed.

(** * Further properties of sessions *)

Lemma filter_items_candidates_nonempty (Env : Type) (ul : str -> str)
    (s s' : _PanelPromptSession Env) (w : Env) :
  completer s <> None -> filter_items ul s w = Ok s' ->
  Forall (fun c => c <> []) (filtered_items s').
Proof.
  intros Hc H. unfold filter_items in H.
  destruct (negb (truthy (strip (input_text s)))).
  - cbn [bind] in H. injection H as <-. constructor.
  - destruct (completer s) as [f|]; [|now elim Hc].
    apply bind_Ok in H. destruct H as [s1 [H1 H]]. injection H as <-.
    apply bind_Ok in H1. destruct H1 as [completions [_ H1]]. injection H1 as <-.
    cbn [filtered_items set_selected_index set_filtered_items].
    apply Forall_forall. intros c Hin. apply filter_In in Hin.
    now apply truthy_true_iff.
Qed.

(** X15.  With a completer function, no candidate of a reachable session is
    the empty string: the empty strings a completer returns are dropped
    before they reach the list. *)
Theorem completer_candidates_nonempty (Env : Type) (ul : str -> str)
    (s : _PanelPromptSession Env) :
  reachable ul s -> completer s <> None ->
  Forall (fun c => c <> []) (filtered_items s).
Proof.
  induction 1 as [prompt chs cmp rows w s H | s w k s' _ IH H]; intros Hc.
  - unfold __init__ in H.
    pose proof (filter_items_fields Env ul _ s w H) as (_ & _ & Hcm & _).
    eapply filter_items_candidates_nonempty; [|exact H]. now rewrite <- Hcm.
  - pose proof (handle_configuration Env ul s s' w k H) as (_ & _ & Hcm & _).
    rewrite Hcm in Hc. specialize (IH Hc).
    apply handle_cases in H. destruct H as [-> | [-> | [-> | [t H]]]].
    + exact IH.
    + destruct (key_up_fields Env s) as (_ & -> & _). exact IH.
    + destruct (key_down_fields Env s) as (_ & -> & _). exact IH.
    + eapply filter_items_candidates_nonempty; [|exact H]. exact Hc.
Qed.

Lemma handle_raise_completer (Env : Type) (ul : str -> str)
    (s : _PanelPromptSession Env) (w : Env) (k : key) (e : exn) :
  selection_ok s -> handle ul s w k = Raise e -> exists f, completer s = Some f.
Proof.
  intros Hs H.
  assert (Hf : forall t, filter_items ul (set_input_text s t) w = Raise e ->
                 exists f, completer s = Some f).
  { intros t Ht. apply filter_items_raise in Ht. destruct Ht as [_ [f [Hc _]]]. eauto. }
  destruct k; cbn [handle] in H; try discriminate.
  - apply bind_Raise in H. destruct H as [H | [a [_ H]]]; [|discriminate].
    unfold key_tab in H. destruct (truthy (filtered_items s)) eqn:Et; [|discriminate].
    apply truthy_true_iff in Et.
    destruct (selection_getitem Env s Hs Et) as [c [Hc _]].
    unfold _accept_selection in H. apply truthy_true_iff in Et. rewrite Et, Hc in H.
    cbn [bind] in H. eapply Hf. exact H.
  - apply bind_Raise in H. destruct H as [H | [a [_ H]]]; [|discriminate].
    unfold key_enter in H. destruct (truthy (filtered_items s)) eqn:Et.
    + apply truthy_true_iff in Et.
      destruct (selection_getitem Env s Hs Et) as [c [Hc _]].
      rewrite Hc in H. destruct (negb _); discriminate.
    + rewrite andb_false_r in H. discriminate.
  - apply bind_Raise in H. destruct H as [H | [a [_ H]]]; [|discriminate].
    unfold key_backspace in H. destruct (truthy (input_text s)); [|discriminate].
    eapply Hf. exact H.
  - destruct (existsb (Z.eqb c) BOUND_CHARACTERS); [|discriminate].
    apply bind_Raise in H. destruct H as [H | [a [_ H]]]; [|discriminate].
    unfold key_char in H. eapply Hf. exact H.
Qed.

(** X16.  A session of the static variant never raises: from a reachable
    state every sequence of key events is handled to the end or to the first
    exit, whatever the keys and the choices. *)
Theorem static_session_never_raises (Env : Type) (ul : str -> str)
    (s : _PanelPromptSession Env) (events : list (key * Env)) :
  reachable ul s -> completer s = None ->
  exists t, run ul s events = Ok t.
Proof.
  revert s. induction events as [|[k w] rest IH]; intros s Hr Hc.
  - eexists. reflexivity.
  - cbn [run]. destruct (handle ul s w k) as [t|e] eqn:Eh.
    + cbn [bind]. destruct t as [s'| |]; try (eexists; reflexivity).
      apply IH.
      * eapply reachable_key; eassumption.
      * pose proof (handle_configuration Env ul s s' w k Eh) as (_ & _ & Hcm & _).
        congruence.
    + destruct (handle_raise_completer Env ul s w k e
                  (reachable_selection_ok Env ul s Hr) Eh) as [f Hf].
      congruence.
Qed.

(** * The further properties at concrete sessions *)

Lemma recompute_idempotent_witness :
  filter_items (fun x => x)
    (mkSession (Env := unit) (lit "> ")
       (Some [lit "com.whatsapp"; lit "com.spotify.music"]) None 6 46 42
       (lit "spot") [lit "com.spotify.music"] 0) tt
  = Ok (mkSession (Env := unit) (lit "> ")
          (Some [lit "com.whatsapp"; lit "com.spotify.music"]) None 6 46 42
          (lit "spot") [lit "com.spotify.music"] 0).
Proof.
  apply (recompute_idempotent unit (fun x => x)
           (mkSession (Env := unit) (lit "> ")
              (Some [lit "com.whatsapp"; lit "com.spotify.music"]) None 6 46 42
              (lit "spot") [lit "old"; lit "list"; lit "here"] 2)).
  vm_compute. reflexivity.
Defined.

Lemma split_completion_query_lossless_witness :
  lit "ls -l " ++ lit "sr" = lit "ls -l sr" /\ ~ In SPACE (lit "sr").
Proof.
  destruct (split_completion_query_lossless (lit "ls -l sr") (lit "ls -l ") (lit "sr"))
    as (H1 & H2 & _).
  - vm_compute. reflexivity.
  - split; assumption.
Defined.

Lemma static_list_in_sync_witness :
  [lit "com.whatsapp"; lit "com.spotify.music"] =
  static_candidates (fun x => x)
    (mkSession (Env := unit) (lit "> ")
       (Some [lit "com.whatsapp"; lit "com.spotify.music"]) None 6 46 42
       (lit "c") [lit "com.whatsapp"; lit "com.spotify.music"] 0).
Proof.
  apply (static_list_in_sync unit (fun x => x)
           (mkSession (Env := unit) (lit "> ")
              (Some [lit "com.whatsapp"; lit "com.spotify.music"]) None 6 46 42
              (lit "c") [lit "com.whatsapp"; lit "com.spotify.music"] 0)).
  - apply (reachable_prompt unit (fun x => x) (lit "> ")
             (Some [lit "com.whatsapp"; lit "com.spotify.music"]) None 6 tt
             [(Character 99, tt)]).
    vm_compute. reflexivity.
  - reflexivity.
Defined.

Lemma type_then_backspace_witness :
  exists s1 s2,
    handle (fun x => x)
      (mkSession (Env := unit) (lit "> ")
         (Some [lit "com.whatsapp"; lit "com.spotify.music"]) None 6 46 42
         (lit "c") [lit "com.whatsapp"; lit "com.spotify.music"] 0) tt (Character 120)
      = Ok (Editing s1) /\
    handle (fun x => x) s1 tt Backspace = Ok (Editing s2) /\
    input_text s2 = lit "c" /\
    filtered_items s2 = [lit "com.whatsapp"; lit "com.spotify.music"].
Proof.
  destruct (type_then_backspace unit (fun x => x)
              (mkSession (Env := unit) (lit "> ")
                 (Some [lit "com.whatsapp"; lit "com.spotify.music"]) None 6 46 42
                 (lit "c") [lit "com.whatsapp"; lit "com.spotify.music"] 0) tt 120)
    as [s1 [s2 (H1 & H2 & _ & H4 & H5 & _)]].
  - apply (reachable_prompt unit (fun x => x) (lit "> ")
             (Some [lit "com.whatsapp"; lit "com.spotify.music"]) None 6 tt
             [(Character 99, tt)]).
    vm_compute. reflexivity.
  - reflexivity.
  - vm_compute. reflexivity.
  - exists s1, s2. repeat split; assumption.
Defined.

Lemma clear_restores_initial_state_witness :
  handle (fun x => x)
    (mkSession (Env := unit) (lit "> ")
       (Some [lit "com.whatsapp"; lit "com.spotify.music"]) None 6 46 42
       (lit "c") [lit "com.whatsapp"; lit "com.spotify.music"] 0) tt Escape
  = Ok (Editing
          (mkSession (Env := unit) (lit "> ")
             (Some [lit "com.whatsapp"; lit "com.spotify.music"]) None 6 46 42
             [] [] 0)).
Proof.
  destruct (clear_restores_initial_state unit (fun x => x)
              (mkSession (Env := unit) (lit "> ")
                 (Some [lit "com.whatsapp"; lit "com.spotify.music"]) None 6 46 42
                 (lit "c") [lit "com.whatsapp"; lit "com.spotify.music"] 0) tt)
    as [s0 (H0 & H1 & _)].
  - apply (reachable_prompt unit (fun x => x) (lit "> ")
             (Some [lit "com.whatsapp"; lit "com.spotify.music"]) None 6 tt
             [(Character 99, tt)]).
    vm_compute. reflexivity.
  - rewrite H1. vm_compute in H0. injection H0 as <-. reflexivity.
Defined.

Lemma arrows_saturate_witness :
  selected_index
    (Nat.iter 5 (@key_down unit)
       (mkSession (Env := unit) (lit "> ") None None 6 46 42 (lit "c")
          [lit "ca"; lit "cb"; lit "cc"] 0)) = 2.
Proof.
  destruct (arrows_saturate unit
              (mkSession (Env := unit) (lit "> ") None None 6 46 42 (lit "c")
                 [lit "ca"; lit "cb"; lit "cc"] 0) 5) as [H _].
  - split; cbn; intros; [vm_compute; intuition discriminate | discriminate].
  - discriminate.
  - rewrite H. reflexivity.
Defined.

Lemma typed_text_is_accepted_witness :
  complete_panel_prompt (fun x => x) (lit "> ") None None 6 tt
    (typing (lit "com.x") tt ++ [(Enter, tt); (Character 97, tt)])
  = Ok (Accepted unit (lit "com.x")).
Proof.
  apply (typed_text_is_accepted unit (fun x => x)). vm_compute. reflexivity.
Defined.

Lemma panel_is_rectangular_witness :
  exists panel,
    render_panel
      (mkSession (Env := unit) (lit "> ") None None 2 46 42 (lit "c")
         [lit "ca"; lit "a candidate that is a good deal longer than the box is wide";
          lit "cc"] 0) = Ok panel /\
    line_widths panel = [46; 46; 46; 46].
Proof.
  destruct (panel_is_rectangular unit
              (mkSession (Env := unit) (lit "> ") None None 2 46 42 (lit "c")
                 [lit "ca";
                  lit "a candidate that is a good deal longer than the box is wide";
                  lit "cc"] 0)) as [panel [Hp Hw]].
  - reflexivity.
  - cbn. lia.
  - repeat constructor; vm_compute; intuition discriminate.
  - exists panel. split; [exact Hp | exact Hw].
Defined.

(** The third of three candidates is selected in a panel of two rows. *)
Lemma highlight_visibility_witness :
  exists panel,
    render_panel
      (mkSession (Env := unit) (lit "> ") None None 2 46 42 (lit "c")
         [lit "ca"; lit "cb"; lit "cc"] 2) = Ok panel /\
    selected_rows panel = 0.
Proof.
  destruct (highlight_visibility unit
              (mkSession (Env := unit) (lit "> ") None None 2 46 42 (lit "c")
                 [lit "ca"; lit "cb"; lit "cc"] 2)) as [panel [Hp Hs]].
  - split; cbn; intros; [vm_compute; intuition discriminate | discriminate].
  - exists panel. split; [exact Hp | exact Hs].
Defined.

Lemma bash_completer_completions_witness :
  exists completions,
    bash_completer (lit "ls s")
      (fun _ => Completed 1 (lit "src" ++ [NEWLINE] ++ lit "sh" ++ [NEWLINE; NEWLINE]
                              ++ lit "src" ++ [NEWLINE])) = Ok completions /\
    NoDup completions /\
    In (lit "ls sh") completions.
Proof.
  destruct (bash_completer_completions (lit "ls s")
              (fun _ => Completed 1 (lit "src" ++ [NEWLINE] ++ lit "sh"
                                      ++ [NEWLINE; NEWLINE] ++ lit "src" ++ [NEWLINE]))
              1 (lit "src" ++ [NEWLINE] ++ lit "sh" ++ [NEWLINE; NEWLINE]
                 ++ lit "src" ++ [NEWLINE]) eq_refl)
    as [completions (H1 & H2 & H3 & _)].
  exists completions. split; [exact H1|]. split; [exact H2|].
  apply H3. exists (lit "sh"). split; [vm_compute; tauto|].
  split; [discriminate | reflexivity].
Defined.

Lemma bash_candidates_one_line_witness :
  Forall no_line_feed [lit "ls src"; lit "ls sh"].
Proof.
  apply (bash_candidates_one_line (fun x => x)
           (mkSession (lit "> ") None (Some bash_completer) 6 46 42 (lit "ls s") [] 0)
           (mkSession (lit "> ") None (Some bash_completer) 6 46 42 (lit "ls s")
              [lit "ls src"; lit "ls sh"] 0)
           (fun _ => Completed 0 (lit "src" ++ [NEWLINE] ++ lit "sh" ++ [NEWLINE]))).
  - reflexivity.
  - vm_compute. intuition discriminate.
  - vm_compute. reflexivity.
Defined.

Lemma shlex_quote_injective_witness : lit "it's" = lit "it's".
Proof.
  apply (shlex_quote_injective (lit "it's") (lit "it's")). reflexivity.
Defined.

Lemma completer_candidates_nonempty_witness :
  Forall (fun c : str => c <> []) [lit "ls"; lit "ln"].
Proof.
  apply (completer_candidates_nonempty unit (fun x => x)
           (mkSession (Env := unit) (lit "> ") (Some DEFAULT_CHOICES)
              (Some (fun _ _ => Ok [lit "ls"; []; lit "ln"])) 6 46 42 (lit "l")
              [lit "ls"; lit "ln"] 0)).
  - apply (reachable_prompt unit (fun x => x) (lit "> ") None
             (Some (fun _ _ => Ok [lit "ls"; []; lit "ln"])) 6 tt
             [(Character 108, tt)]).
    vm_compute. reflexivity.
  - discriminate.
Defined.

Lemma static_session_never_raises_witness :
  exists t,
    run (fun x => x)
      (mkSession (Env := unit) (lit "> ")
         (Some [lit "com.whatsapp"; lit "com.spotify.music"]) None 6 46 42
         (lit "c") [lit "com.whatsapp"; lit "com.spotify.music"] 0)
      [(Down, tt); (Down, tt); (Tab, tt); (Backspace, tt); (Enter, tt)] = Ok t.
Proof.
  apply (static_session_never_raises unit (fun x => x)).
  - apply (reachable_prompt unit (fun x => x) (lit "> ")
             (Some [lit "com.whatsapp"; lit "com.spotify.music"]) None 6 tt
             [(Character 99, tt)]).
    vm_compute. reflexivity.
  - reflexivity.
Defined.
